(** * The query-plan graph builder of bq-visualizer

    A shallow embedding of [src/app/bq_query_plan.ts]: the class
    [BqQueryPlan] turns the JSON document of one BigQuery job into a graph
    of execution stages.  Its constructor validates the document, adds a
    "ghost" node for every table a stage reads from, adds one edge per
    read, and decorates every stage with display fields.

    The embedding follows the code:
    - a JavaScript exception is a value of [JS.completion];
    - the array [this.nodes] is a list, and an object of that array is
      identified by its position, which is how the edges refer to the
      stages they connect (the code stores object references);
    - JavaScript numbers are IEEE 754 binary64 floats ([PrimFloat]);
    - the conversion of a string to a number and the rendering of a number
      for the locale ['en'] are part of the runtime, see [JS.Runtime].

    Of the class [ProjectsComponent], which lists the projects of the
    user, the filter [updateFilter] is embedded as well. *)

From Stdlib Require Import Floats Ascii String.
From stdpp Require Import base strings list gmap pretty sorting.

(** ** The JavaScript runtime, as far as the class uses it *)

Module JS.

Inductive Error := TypeError (msg : string).

(** The completion of an evaluation: a value or a thrown exception. *)
Inductive completion (A : Type) :=
| Normal (a : A)
| Throw (e : Error).
Arguments Normal {A} a.
Arguments Throw {A} e.

Definition bind {A B} (c : completion A) (k : A → completion B) : completion B :=
  match c with
  | Normal a => k a
  | Throw e => Throw e
  end.

(** [Array.prototype.map] with a callback that may throw: the first
    exception ends the traversal. *)
Fixpoint mapThrowing {A B} (f : A → completion B) (l : list A) : completion (list B) :=
  match l with
  | [] => Normal []
  | x :: l' =>
      bind (f x) (λ y, bind (mapThrowing f l') (λ ys, Normal (y :: ys)))
  end.

(** The scalar values a JSON document gives to the timing fields of a
    stage: BigQuery sends 64-bit integers as strings, other producers
    send numbers. *)
Inductive prim :=
| JNum (x : float)
| JStr (s : string).

(** [ToBoolean] of a field that may be absent ([undefined]). *)
Definition truthy (v : option prim) : bool :=
  match v with
  | None => false
  | Some (JNum x) => negb (PrimFloat.is_nan x || PrimFloat.eqb x 0%float)
  | Some (JStr s) => negb (String.eqb s "")
  end.

(** The two services of the runtime that the class calls and that are
    not modelled further: [StringToNumber] is the conversion applied by
    [Number(s)] to a string, [toLocaleString] is
    [Number.prototype.toLocaleString('en')]. *)
Class Runtime := {
  StringToNumber : string → float;
  toLocaleString : float → string
}.

(** [Number(v)]: [undefined] converts to NaN. *)
Definition Number `{Runtime} (v : option prim) : float :=
  match v with
  | None => PrimFloat.nan
  | Some (JNum x) => x
  | Some (JStr s) => StringToNumber s
  end.

Definition isNaN (x : float) : bool := PrimFloat.is_nan x.

(** [s.startsWith(p)] *)
Definition startsWith (s p : string) : bool := String.prefix p s.

(** [s.split(sep)] for a separator of one character. *)
Fixpoint split (sep : Ascii.ascii) (s : string) : list string :=
  match s with
  | EmptyString => [EmptyString]
  | String c s' =>
      if Ascii.eqb c sep then EmptyString :: split sep s'
      else match split sep s' with
           | [] => [String c EmptyString]
           | item :: items => String c item :: items
           end
  end.

Definition isPositiveZero (x : float) : bool :=
  match PrimFloat.classify x with PZero => true | _ => false end.

Definition isNegativeZero (x : float) : bool :=
  match PrimFloat.classify x with NZero => true | _ => false end.

(** [Math.max(...l)]: NaN if an argument is NaN, otherwise the largest
    argument, where +0 is larger than -0; -Infinity for no argument. *)
Definition Math_max (l : list float) : float :=
  if existsb isNaN l then PrimFloat.nan
  else
    foldl
      (λ highest number,
        if (isPositiveZero number && isNegativeZero highest)
           || PrimFloat.ltb highest number
        then number else highest)
      PrimFloat.neg_infinity l.

(** [l.indexOf(x)]: the first index whose element is strictly equal to
    [x], or -1.  Strict equality of numbers is the IEEE equality. *)
Fixpoint indexOfFrom (i : Z) (l : list float) (x : float) : Z :=
  match l with
  | [] => (-1)%Z
  | y :: l' => if PrimFloat.eqb y x then i else indexOfFrom (i + 1)%Z l' x
  end.

Definition indexOf (l : list float) (x : float) : Z := indexOfFrom 0%Z l x.

(** [l[i]] for an integer index: [undefined] out of range. *)
Definition at_index {A} (l : list A) (i : Z) : option A :=
  if (i <? 0)%Z then None else l !! Z.to_nat i.

(** [s.lastIndexOf(searchString)] with no position: the greatest index at
    which [searchString] occurs in [s], or -1.  [i] is the index of the
    first character of [s] in the whole string. *)
Fixpoint lastIndexOfFrom (i : Z) (s searchString : string) : Z :=
  match s with
  | EmptyString => if startsWith s searchString then i else (-1)%Z
  | String _ s' =>
      let later := lastIndexOfFrom (i + 1)%Z s' searchString in
      if (0 <=? later)%Z then later
      else if startsWith s searchString then i else (-1)%Z
  end.

Definition lastIndexOf (s searchString : string) : Z := lastIndexOfFrom 0%Z s searchString.

End JS.

Import JS.

(** ** The data model ([rest_interfaces.ts]) *)

(** Modelled from the spec: the interface [QueryStep] of
    [rest_interfaces.ts], a kind tag and a list of substep strings. *)
Module QueryStep.
Record t := mk {
  kind : string;
  substeps : list string
}.
End QueryStep.

(** A value stored under one of the display keys of a stage: a string, or
    the [Date] object made by [new Date(x)]. *)
Inductive DisplayValue :=
| Text (s : string)
| NewDate (x : float).

(** Modelled from the spec: the interface [QueryStage] of
    [rest_interfaces.ts].  A field that the JSON document may leave out is
    an [option]; [props] holds the properties outside the declared fields,
    which is where the class stores what it derives
    ([node['durationMs  '] = ...]). *)
Module QueryStage.
Record t := mk {
  id : string;
  name : string;
  steps : option (list QueryStep.t);
  inputStages : option (list string);
  startMs : option prim;
  endMs : option prim;
  waitMsAvg : option prim;
  waitMsMax : option prim;
  readMsAvg : option prim;
  readMsMax : option prim;
  computeMsAvg : option prim;
  computeMsMax : option prim;
  writeMsAvg : option prim;
  writeMsMax : option prim;
  isExternal : option bool;
  props : gmap string DisplayValue
}.

(** [node[key] = v] for a key that is none of the declared fields. *)
Definition setProp (key : string) (v : DisplayValue) (node : t) : t :=
  {| id := id node; name := name node; steps := steps node;
     inputStages := inputStages node;
     startMs := startMs node; endMs := endMs node;
     waitMsAvg := waitMsAvg node; waitMsMax := waitMsMax node;
     readMsAvg := readMsAvg node; readMsMax := readMsMax node;
     computeMsAvg := computeMsAvg node; computeMsMax := computeMsMax node;
     writeMsAvg := writeMsAvg node; writeMsMax := writeMsMax node;
     isExternal := isExternal node;
     props := <[key := v]> (props node) |}.
End QueryStage.

(** Modelled from the spec: the interface [Job] of [rest_interfaces.ts],
    [{ kind, id, statistics: { query: { queryPlan }, startTime, endTime } }]. *)
Module Job.
Record Query := mkQuery {
  queryPlan : option (list QueryStage.t)
}.

Record Statistics := mkStatistics {
  query : option Query;
  startTime : option prim;
  endTime : option prim
}.

Record t := mk {
  kind : option string;
  id : option string;
  statistics : option Statistics
}.
End Job.

(** An edge holds references to two objects of [this.nodes]; a reference
    is the position of the object in the array.  [from] is what [getNode]
    returned, which may be [undefined]. *)
Module Edge.
Record t := mk {
  from : option nat;
  to : nat;
  outputName : string
}.
End Edge.

(** Modelled from the spec: the diagnostic sink [LogService] of
    [log.service.ts], which receives [warn], [error] and [debug] calls with
    a message; a call is recorded as a level and the message. *)
Inductive LogLevel := Warn | Err | Debug.

Definition LogEntry : Type := LogLevel * string.

(** A value of the object that [formatStageStats] builds: a string, an
    array of strings ([inputStages]), the [Date] object made by
    [new Date(x)], or whatever an undeclared property of the stage holds
    ([node.status]), which may be [undefined]. *)
Inductive StatValue :=
| SString (s : string)
| SStrings (l : list string)
| SDate (x : float)
| SField (v : option DisplayValue).

(** Two more services of the runtime: [JSON_stringify fields] is
    [JSON.stringify(o, null, 4)] for the object [o] with the properties
    [fields], in their order; [DateValue x] is the number that
    [Number(new Date(x))] gives. *)
Class Builtins := {
  JSON_stringify : list (string * StatValue) → string;
  DateValue : float → float
}.

Module Sample.

(** ** Documents and a runtime for closed examples *)

(** A runtime for the closed examples below.  It converts decimal integer
    literals (and the empty string, to 0) and renders integral numbers in
    groups of three digits, as JavaScript does on these inputs; it gives
    NaN for every other string and ["?"] for the other numbers. *)
Fixpoint decimalValue (acc : Z) (s : string) : option Z :=
  match s with
  | EmptyString => Some acc
  | String c s' =>
      let d := (Z.of_nat (nat_of_ascii c) - 48)%Z in
      if (0 <=? d)%Z && (d <=? 9)%Z then decimalValue (10 * acc + d)%Z s' else None
  end.

Definition sampleStringToNumber (s : string) : float :=
  match decimalValue 0 s with
  | Some n => PrimFloat.of_uint63 (Uint63.of_Z n)
  | None => PrimFloat.nan
  end.

Definition integerOfFloat (x : float) : option Z :=
  match Prim2SF x with
  | S754_zero _ => Some 0%Z
  | S754_finite s m e =>
      let n := if (0 <=? e)%Z then Some (Z.pos m * 2 ^ e)%Z
               else if (Z.pos m mod 2 ^ (- e) =? 0)%Z then Some (Z.pos m / 2 ^ (- e))%Z
               else None in
      (λ n, if s then (- n)%Z else n) <$> n
  | _ => None
  end.

Fixpoint groupReversed (n : nat) (digits : list ascii) : list ascii :=
  match digits with
  | [] => []
  | d :: digits' =>
      match n with
      | 0 => ","%char :: d :: groupReversed 2 digits'
      | S n' => d :: groupReversed n' digits'
      end
  end.

Definition grouped (n : N) : string :=
  string_of_list_ascii (rev (groupReversed 3 (rev (list_ascii_of_string (pretty n))))).

Definition sampleToLocaleString (x : float) : string :=
  match integerOfFloat x with
  | Some n => if (n <? 0)%Z then "-" +:+ grouped (Z.to_N (- n)) else grouped (Z.to_N n)
  | None => if PrimFloat.is_nan x then "NaN" else "?"
  end.

Definition sampleRuntime : Runtime :=
  {| StringToNumber := sampleStringToNumber; toLocaleString := sampleToLocaleString |}.

(** Stand-ins for the closed examples: the text lists the keys of the
    object, and a date has the number it was made from. *)
Definition sampleBuiltins : Builtins :=
  {| JSON_stringify := λ fields, "{" +:+ String.concat "," (fst <$> fields) +:+ "}";
     DateValue := λ x, x |}.

(** A stage as BigQuery reports it. *)
Definition sampleStage (id name : string) (steps : list QueryStep.t)
    (inputStages : option (list string)) (startMs endMs : string) : QueryStage.t :=
  {| QueryStage.id := id; QueryStage.name := name;
     QueryStage.steps := Some steps; QueryStage.inputStages := inputStages;
     QueryStage.startMs := Some (JStr startMs); QueryStage.endMs := Some (JStr endMs);
     QueryStage.waitMsAvg := Some (JStr "5"); QueryStage.waitMsMax := Some (JStr "9");
     QueryStage.readMsAvg := Some (JStr "120"); QueryStage.readMsMax := Some (JStr "200");
     QueryStage.computeMsAvg := Some (JStr "40"); QueryStage.computeMsMax := Some (JStr "70");
     QueryStage.writeMsAvg := Some (JStr "300"); QueryStage.writeMsMax := Some (JStr "400");
     QueryStage.isExternal := None; QueryStage.props := ∅ |}.

Definition sampleJob (kind : option string) (stages : option (list QueryStage.t)) : Job.t :=
  {| Job.kind := kind; Job.id := Some "job_42";
     Job.statistics :=
       Some {| Job.query := Some {| Job.queryPlan := stages |};
               Job.startTime := Some (JStr "0"); Job.endTime := Some (JStr "10000") |} |}.

(** Two stages that read the same table; the second also reads the output
    of the first, which BigQuery names with two underscores in the step
    and lists in [inputStages]. *)
Definition inputStage : QueryStage.t :=
  sampleStage "0" "S00: Input"
    [QueryStep.mk "READ" ["$1:word"; "FROM publicdata.samples.shakespeare"];
     QueryStep.mk "WRITE" ["$1"; "TO __stage00_output"]]
    None "1000" "3000".

Definition outputStage : QueryStage.t :=
  sampleStage "1" "S01: Output"
    [QueryStep.mk "READ" ["$1"; "FROM __stage00_output"];
     QueryStep.mk "READ" ["$2:word"; "FROM publicdata.samples.shakespeare"];
     QueryStep.mk "WRITE" ["$1"; "TO __stage01_output"]]
    (Some ["0"]) "3000" "9000".

Definition sampleStages : list QueryStage.t := [inputStage; outputStage].

Definition samplePlan : Job.t := sampleJob (Some "bigquery#job") (Some sampleStages).

(** A stage whose only reference is an input-stage entry that starts with
    two underscores. *)
Definition underscoreStage : QueryStage.t :=
  sampleStage "1" "S01: Output" [] (Some ["__tmp"]) "1000" "3000".

Definition underscorePlan : Job.t :=
  sampleJob (Some "bigquery#job") (Some [underscoreStage]).

(** A document with a valid kind and no statistics block. *)
Definition noStatisticsPlan : Job.t :=
  {| Job.kind := Some "bigquery#job"; Job.id := Some "job_42"; Job.statistics := None |}.

(** A stage with a READ step none of whose substeps starts with ["FROM "]. *)
Definition fromlessStage : QueryStage.t :=
  sampleStage "0" "S00: Input" [QueryStep.mk "READ" ["$1:word"]] None "1000" "3000".

Definition fromlessPlan : Job.t := sampleJob (Some "bigquery#job") (Some [fromlessStage]).

(** The stage of the timing example. *)
Definition timedStage : QueryStage.t :=
  {| QueryStage.id := "0"; QueryStage.name := "S00: Input";
     QueryStage.steps := Some []; QueryStage.inputStages := None;
     QueryStage.startMs := Some (JNum 1000); QueryStage.endMs := Some (JNum 3000);
     QueryStage.waitMsAvg := Some (JNum 5); QueryStage.waitMsMax := Some (JNum 9);
     QueryStage.readMsAvg := Some (JNum 120); QueryStage.readMsMax := Some (JNum 200);
     QueryStage.computeMsAvg := Some (JNum 40); QueryStage.computeMsMax := Some (JNum 70);
     QueryStage.writeMsAvg := Some (JNum 300); QueryStage.writeMsMax := Some (JNum 400);
     QueryStage.isExternal := None; QueryStage.props := ∅ |}.

Definition timedStatistics : Job.Statistics :=
  {| Job.query := Some {| Job.queryPlan := Some [timedStage] |};
     Job.startTime := Some (JNum 0); Job.endTime := Some (JNum 10000) |}.

Definition timedPlan : Job.t :=
  {| Job.kind := Some "bigquery#job"; Job.id := Some "job_42";
     Job.statistics := Some timedStatistics |}.

(** The stage of the timing example when it starts with the job, at the
    number 0. *)
Definition zeroStartStage : QueryStage.t :=
  {| QueryStage.id := "0"; QueryStage.name := "S00: Input";
     QueryStage.steps := Some []; QueryStage.inputStages := None;
     QueryStage.startMs := Some (JNum 0); QueryStage.endMs := Some (JNum 3000);
     QueryStage.waitMsAvg := Some (JNum 5); QueryStage.waitMsMax := Some (JNum 9);
     QueryStage.readMsAvg := Some (JNum 120); QueryStage.readMsMax := Some (JNum 200);
     QueryStage.computeMsAvg := Some (JNum 40); QueryStage.computeMsMax := Some (JNum 70);
     QueryStage.writeMsAvg := Some (JNum 300); QueryStage.writeMsMax := Some (JNum 400);
     QueryStage.isExternal := None; QueryStage.props := ∅ |}.

Definition zeroStartStatistics : Job.Statistics :=
  {| Job.query := Some {| Job.queryPlan := Some [zeroStartStage] |};
     Job.startTime := Some (JNum 0); Job.endTime := Some (JNum 10000) |}.

Definition zeroStartPlan : Job.t :=
  {| Job.kind := Some "bigquery#job"; Job.id := Some "job_42";
     Job.statistics := Some zeroStartStatistics |}.

(** A stage with a wait average of 5 and a compute average of 40, and no
    read average. *)
Definition readlessStage : QueryStage.t :=
  {| QueryStage.id := "0"; QueryStage.name := "S00: Input";
     QueryStage.steps := Some []; QueryStage.inputStages := None;
     QueryStage.startMs := Some (JNum 1000); QueryStage.endMs := Some (JNum 3000);
     QueryStage.waitMsAvg := Some (JNum 5); QueryStage.waitMsMax := Some (JNum 9);
     QueryStage.readMsAvg := None; QueryStage.readMsMax := None;
     QueryStage.computeMsAvg := Some (JNum 40); QueryStage.computeMsMax := Some (JNum 70);
     QueryStage.writeMsAvg := Some (JNum 300); QueryStage.writeMsMax := Some (JNum 400);
     QueryStage.isExternal := None; QueryStage.props := ∅ |}.

End Sample.

Import Sample.

(** ** The filter of the class [ProjectsComponent] *)

Module ProjectsComponent.

Section WithProject.

(** The interface [BqProject] of [rest_interfaces.ts], of which the
    component reads the string [id]. *)
Context {BqProject : Type} (id : BqProject → string).

(** The fields of the component that hold data; [isLoading] is not set
    until the projects are loaded. *)
Record t := mk {
  allProjects : list BqProject;
  projects : list BqProject;
  projectFilter : string;
  selectedProject : option BqProject;
  isLoading : option bool
}.

(** [updateFilter()]: a filter that is not the empty string keeps the
    projects [p] with [p.id.lastIndexOf(this.projectFilter) >= 0]. *)
Definition updateFilter (this : t) : t :=
  match projectFilter this with
  | String _ _ =>
      {| allProjects := allProjects this;
         projects :=
           List.filter (λ p, (0 <=? lastIndexOf (id p) (projectFilter this))%Z)
             (allProjects this);
         projectFilter := projectFilter this;
         selectedProject := selectedProject this;
         isLoading := isLoading this |}
  | EmptyString =>
      {| allProjects := allProjects this;
         projects := allProjects this;
         projectFilter := projectFilter this;
         selectedProject := selectedProject this;
         isLoading := isLoading this |}
  end.

End WithProject.

(** [part] occurs in [s]. *)
Definition occursIn (part s : string) : Prop := ∃ pre post, s = pre +:+ part +:+ post.

End ProjectsComponent.

(** ** The class [BqQueryPlan] *)

Module BqQueryPlan.

(** The fields [nodes], [edges] and [isValid] of an instance. *)
Record t := mk {
  nodes : list QueryStage.t;
  edges : list Edge.t;
  isValid : bool
}.

(** How the evaluation of the constructor ends.  [OutOfFuel] is an
    artefact of the bounded model of the [for ... of] loop over the growing
    array; the theorem on the completion of the constructor shows that it
    never occurs. *)
Inductive outcome :=
| Completed
| Threw (e : Error)
| OutOfFuel.

(** What the constructor leaves behind: the fields of [this], the calls
    made to the diagnostic sink, and how the evaluation ended. *)
Record construction := mkConstruction {
  this : t;
  log : list LogEntry;
  result : outcome
}.

(** A row handed to the chart:
    [[id, name, new Date(..), new Date(..), null, 100, null]].  The two
    dates are given by the argument of [new Date]; [null] is [None]. *)
Record GanttRow := mkRow {
  taskId : string;
  taskName : string;
  startDate : float;
  endDate : float;
  duration : option float;
  percentComplete : Z;
  dependencies : option string
}.

Section WithRuntime.
Context {runtime : Runtime}.
Context {builtins : Builtins}.

(** The callback of [.map] in [getReads]: the identifier that a READ step
    reads from, or [null] for an identifier starting with two underscores.
    [find] gives [undefined] when no substep starts with ["FROM "], and
    calling [split] on it throws. *)
Definition readSource (step : QueryStep.t) : completion (option string) :=
  match List.find (λ substep, startsWith substep "FROM ") (QueryStep.substeps step) with
  | None => Throw (TypeError "Cannot read property 'split' of undefined")
  | Some readSubstep =>
      let items := split " "%char readSubstep in
      match items !! 1 with
      | None => Throw (TypeError "Cannot read property 'startsWith' of undefined")
      | Some item => Normal (if startsWith item "__" then None else Some item)
      end
  end.

(** [.filter(item => item)]: [null] and the empty string are dropped. *)
Definition truthyItems (items : list (option string)) : list string :=
  omap (λ item,
          match item with
          | Some s => if String.eqb s "" then None else Some s
          | None => None
          end) items.

(** extract all node ids that are read from *)
Definition getReads (node : QueryStage.t) : completion (list string) :=
  match QueryStage.steps node with
  | None => Normal []
  | Some steps =>
      bind (mapThrowing readSource
              (List.filter (λ step, String.eqb (QueryStep.kind step) "READ") steps))
        (λ items,
          let result := truthyItems items in
          match QueryStage.inputStages node with
          | Some inputStages => Normal (result ++ inputStages)
          | None => Normal result
          end)
  end.

(** find a node by its id: the first object of the array with that id,
    given with its position, which identifies the object. *)
Definition getNode (nodes : list QueryStage.t) (id : string) : option (nat * QueryStage.t) :=
  list_find (λ x, QueryStage.id x = id) nodes.

(** The object literal [{name: sourceNodeId, id: sourceNodeId, isExternal: true}]. *)
Definition ghostNode (sourceNodeId : string) : QueryStage.t :=
  {| QueryStage.id := sourceNodeId;
     QueryStage.name := sourceNodeId;
     QueryStage.steps := None;
     QueryStage.inputStages := None;
     QueryStage.startMs := None; QueryStage.endMs := None;
     QueryStage.waitMsAvg := None; QueryStage.waitMsMax := None;
     QueryStage.readMsAvg := None; QueryStage.readMsMax := None;
     QueryStage.computeMsAvg := None; QueryStage.computeMsMax := None;
     QueryStage.writeMsAvg := None; QueryStage.writeMsMax := None;
     QueryStage.isExternal := Some true;
     QueryStage.props := ∅ |}.

(** The body of the inner loop of the constructor, for the stage [node]
    at position [to] and one of its reads. *)
Definition addSource (to : nat) (node : QueryStage.t)
    (st : list QueryStage.t * list Edge.t) (sourceNodeId : string)
    : list QueryStage.t * list Edge.t :=
  let nodes1 :=
    match getNode st.1 sourceNodeId with
    | None => st.1 ++ [ghostNode sourceNodeId]
    | Some _ => st.1
    end in
  (nodes1,
   st.2 ++ [ {| Edge.from := fst <$> getNode nodes1 sourceNodeId;
                Edge.to := to;
                Edge.outputName := QueryStage.name node |} ]).

(** The loop [for (const node of this.nodes)] that adds ghost nodes and
    edges.  The array grows while it is traversed, and the iterator visits
    the objects pushed meanwhile; [i] is the position of the iterator. *)
Fixpoint addGhostNodesAndEdges (fuel i : nat) (st : list QueryStage.t * list Edge.t)
    : (list QueryStage.t * list Edge.t) * outcome :=
  match fuel with
  | 0 => (st, OutOfFuel)
  | S fuel' =>
      match st.1 !! i with
      | None => (st, Completed)
      | Some node =>
          match getReads node with
          | Throw e => (st, Threw e)
          | Normal reads =>
              addGhostNodesAndEdges fuel' (S i) (foldl (addSource i node) st reads)
          end
      end
  end.

(** Process the raw node data to improve usability on display. *)
Definition improveNodeInfo (plan : Job.t) (node : QueryStage.t) : completion QueryStage.t :=
  if negb (truthy (QueryStage.startMs node)) || negb (truthy (QueryStage.endMs node))
  then Normal node
  else
    match Job.statistics plan with
    | None => Throw (TypeError "Cannot read property 'startTime' of undefined")
    | Some stats =>
        let endMs := Number (QueryStage.endMs node) in
        let startMs := Number (QueryStage.startMs node) in
        let jobStartMs := Number (Job.startTime stats) in
        let jobEndMs := Number (Job.endTime stats) in
        if isNaN startMs || isNaN endMs || isNaN jobStartMs || isNaN jobEndMs
        then Normal node
        else
          let duration := (endMs - startMs)%float in
          let node1 := QueryStage.setProp "durationMs  " (Text (toLocaleString duration)) node in
          let startPct := ((100 * (startMs - jobStartMs)) / (jobEndMs - jobStartMs))%float in
          let endPct := ((100 * (endMs - jobStartMs)) / (jobEndMs - jobStartMs))%float in
          let avgMax (avg max : option prim) :=
            Text ("avg: " +:+ toLocaleString (Number avg)
                  +:+ " max: " +:+ toLocaleString (Number max)) in
          let node2 := QueryStage.setProp "wait (ms)   "
                         (avgMax (QueryStage.waitMsAvg node) (QueryStage.waitMsMax node)) node1 in
          let node3 := QueryStage.setProp "read (ms)   "
                         (avgMax (QueryStage.readMsAvg node) (QueryStage.readMsMax node)) node2 in
          let node4 := QueryStage.setProp "compute (ms)"
                         (avgMax (QueryStage.computeMsAvg node) (QueryStage.computeMsMax node)) node3 in
          let node5 := QueryStage.setProp "write (ms)  "
                         (avgMax (QueryStage.writeMsAvg node) (QueryStage.writeMsMax node)) node4 in
          let node6 := QueryStage.setProp "startTime   " (NewDate startMs) node5 in
          let node7 := QueryStage.setProp "endTime     " (NewDate endMs) node6 in
          let node8 := QueryStage.setProp "start %     "
                         (Text (toLocaleString startPct +:+ "% of job duration")) node7 in
          Normal (QueryStage.setProp "end %       "
                    (Text (toLocaleString endPct +:+ "% of job duration")) node8)
    end.

(** The loop [for (const node of this.nodes) { this.improveNodeInfo(node); }]:
    every object is updated in place; an exception leaves the objects that
    were not reached as they are. *)
Fixpoint improveAll (plan : Job.t) (nodes : list QueryStage.t)
    : list QueryStage.t * outcome :=
  match nodes with
  | [] => ([], Completed)
  | node :: rest =>
      match improveNodeInfo plan node with
      | Throw e => (node :: rest, Threw e)
      | Normal node' =>
          let r := improveAll plan rest in (node' :: r.1, r.2)
      end
  end.

(** A bound on the number of objects a stage can make the constructor push:
    one per step and one per input stage. *)
Definition readCapacity (node : QueryStage.t) : nat :=
  length (default [] (QueryStage.steps node))
  + length (default [] (QueryStage.inputStages node)).

(** The number of iterations granted to the first loop of the constructor:
    more than the length the array can reach. *)
Definition loopBound (stages : list QueryStage.t) : nat :=
  S (length stages + sum_list_with readCapacity stages).

(** The template literal [`${id}`] of a field that may be absent. *)
Definition template (v : option string) : string := default "undefined" v.

(** [new BqQueryPlan(plan, logSvc)] *)
Definition constructor (plan : Job.t) : construction :=
  let this0 := {| nodes := []; edges := []; isValid := false |} in
  match Job.kind plan with
  | None =>
      {| this := this0;
         log := [(Warn, "No plan document found in job.")];
         result := Completed |}
  | Some kind =>
      if negb (startsWith kind "bigquery") then
        {| this := this0;
           log := [(Warn, "Retrieved document is not of kind bigquery but of kind "
                          +:+ kind +:+ ".")];
           result := Completed |}
      else
        match Job.statistics plan with
        | None =>
            {| this := this0; log := [];
               result := Threw (TypeError "Cannot read property 'query' of undefined") |}
        | Some statistics =>
            match Job.query statistics ≫= Job.queryPlan with
            | None =>
                {| this := this0;
                   log := [(Warn, "No query found in job " +:+ template (Job.id plan))];
                   result := Completed |}
            | Some queryPlan =>
                let r := addGhostNodesAndEdges (loopBound queryPlan) 0 (queryPlan, []) in
                match r.2 with
                | Completed =>
                    let r' := improveAll plan r.1.1 in
                    {| this := {| nodes := r'.1; edges := r.1.2; isValid := true |};
                       log := []; result := r'.2 |}
                | o =>
                    {| this := {| nodes := r.1.1; edges := r.1.2; isValid := true |};
                       log := []; result := o |}
                end
            end
        end
  end.

(** The rows that [asGoogleGantt] hands to the chart. *)
Definition isInternal (node : QueryStage.t) : bool :=
  match QueryStage.isExternal node with
  | None => true
  | Some isExternal => negb isExternal
  end.

Definition ganttRow (node : QueryStage.t) : GanttRow :=
  {| taskId := QueryStage.id node;
     taskName := QueryStage.name node;
     startDate := Number (QueryStage.startMs node);
     endDate := Number (QueryStage.endMs node);
     duration := None;
     percentComplete := 100;
     dependencies := None |}.

Definition ganttRows (p : t) : list GanttRow :=
  ganttRow <$> List.filter isInternal (nodes p).

(** create a google gantt chart object: without the container an error is
    logged and nothing is drawn, otherwise the rows are drawn. *)
Definition asGoogleGantt (containerName : string) (container : bool) (p : t)
    : list LogEntry * option (list GanttRow) :=
  if container then ([], Some (ganttRows p))
  else ([(Err, "Can't find container '" +:+ containerName +:+ "'")], None).

Definition palette : list string := ["#fbc02d"; "#7b1fa2"; "#ef6c00"; "#1565c0"].

(** Calculate the node background color, returning the one for the biggest
    time.  [None] is [undefined]. *)
Definition colorForMaxTime (node : QueryStage.t) : option string :=
  if truthy (QueryStage.waitMsAvg node) then
    let timeList :=
      [Number (QueryStage.waitMsAvg node); Number (QueryStage.readMsAvg node);
       Number (QueryStage.computeMsAvg node); Number (QueryStage.waitMsAvg node)] in
    let maxTime := Math_max timeList in
    let index := indexOf timeList maxTime in
    at_index palette index
  else Some "#2290FF".

(** [height: internalNodes.length * 20], the height of the chart. *)
Definition ganttHeight (p : t) : nat := length (List.filter isInternal (nodes p)) * 20.

(** [Number(node.parallelInputs)] and the like, for a property of the
    stage outside the declared fields. *)
Definition fieldNumber (v : option DisplayValue) : float :=
  match v with
  | None => PrimFloat.nan
  | Some (Text s) => StringToNumber s
  | Some (NewDate x) => DateValue x
  end.

(** The object literal [result] of [formatStageStats], for the numbers
    [startMs], [endMs], [startPct] and [endPct] computed before it. *)
Definition stageStats (node : QueryStage.t) (startMs endMs startPct endPct : float)
    : list (string * StatValue) :=
  let avgMax (avg max : option prim) :=
    SString ("avg: " +:+ toLocaleString (Number avg)
             +:+ " max: " +:+ toLocaleString (Number max)) in
  let count (key : string) :=
    SString (toLocaleString (fieldNumber (QueryStage.props node !! key))) in
  [("id             ", SString (QueryStage.id node));
   ("name           ", SString (QueryStage.name node));
   ("status         ", SField (QueryStage.props node !! "status"));
   ("input stages   ",
      match QueryStage.inputStages node with
      | Some inputStages => SStrings inputStages
      | None => SString "n/a"
      end);
   ("parallelInputs ", count "parallelInputs");
   ("recordsRead    ", count "recordsRead");
   ("shuffleOutputBytesSpilled", count "shuffleOutputBytesSpilled");
   ("recordsWritten ", count "recordsWritten");
   ("wait (ms)      ", avgMax (QueryStage.waitMsAvg node) (QueryStage.waitMsMax node));
   ("read (ms)      ", avgMax (QueryStage.readMsAvg node) (QueryStage.readMsMax node));
   ("compute (ms)   ", avgMax (QueryStage.computeMsAvg node) (QueryStage.computeMsMax node));
   ("write (ms)     ", avgMax (QueryStage.writeMsAvg node) (QueryStage.writeMsMax node));
   ("startTime      ", SDate startMs);
   ("endTime        ", SDate endMs);
   ("start %        ", SString (toLocaleString startPct +:+ "% of job duration"));
   ("end %          ", SString (toLocaleString endPct +:+ "% of job duration"))].

(** reformat the nodes stage statistics to something more pleasing: the
    text returned, and the stage, on which [durationMs  ] is set. *)
Definition formatStageStats (plan : Job.t) (node : QueryStage.t)
    : completion (QueryStage.t * string) :=
  match Job.statistics plan with
  | None => Throw (TypeError "Cannot read property 'startTime' of undefined")
  | Some stats =>
      let endMs := Number (QueryStage.endMs node) in
      let startMs := Number (QueryStage.startMs node) in
      let jobStartMs := Number (Job.startTime stats) in
      let jobEndMs := Number (Job.endTime stats) in
      if isNaN startMs || isNaN endMs || isNaN jobStartMs || isNaN jobEndMs
      then Normal (node, "n/a")
      else
        let duration := (endMs - startMs)%float in
        let node1 := QueryStage.setProp "durationMs  " (Text (toLocaleString duration)) node in
        let startPct := ((100 * (startMs - jobStartMs)) / (jobEndMs - jobStartMs))%float in
        let endPct := ((100 * (endMs - jobStartMs)) / (jobEndMs - jobStartMs))%float in
        Normal (node1, JSON_stringify (stageStats node1 startMs endMs startPct endPct))
  end.

(** Return a formatted text of all details minus the steps. *)
Definition getStageStats (plan : Job.t) (node : QueryStage.t)
    : completion (QueryStage.t * string) :=
  formatStageStats plan node.

(** Return the formatted text of the steps. *)
Definition getStepDetails (node : QueryStage.t) : list QueryStep.t :=
  match QueryStage.steps node with
  | Some steps => steps
  | None => []
  end.

(** ** Notions used to state the properties *)

(** The second item of the first substep that starts with ["FROM "]. *)
Definition fromToken (step : QueryStep.t) : option string :=
  readSubstep ← List.find (λ substep, startsWith substep "FROM ") (QueryStep.substeps step);
  split " "%char readSubstep !! 1.

(** The identifier a READ step contributes, if any: its [fromToken] unless
    that is empty or starts with two underscores. *)
Definition stepReference (step : QueryStep.t) : option string :=
  item ← fromToken step;
  if startsWith item "__" || String.eqb item "" then None else Some item.

Definition readSteps (node : QueryStage.t) : list QueryStep.t :=
  List.filter (λ step, String.eqb (QueryStep.kind step) "READ")
    (default [] (QueryStage.steps node)).

(** The read references of a stage: one for each READ step that names a
    source. *)
Definition readReferences (node : QueryStage.t) : list string :=
  omap stepReference (readSteps node).

(** The input-stage references of a stage: the entries of [inputStages].
    An object without [steps] is treated as a ghost node by [getReads], and
    its [inputStages] are not looked at. *)
Definition inputReferences (node : QueryStage.t) : list string :=
  match QueryStage.steps node with
  | Some _ => default [] (QueryStage.inputStages node)
  | None => []
  end.

(** A stage is readable when each of its READ steps has a substep that
    starts with ["FROM "]. *)
Definition hasFrom (step : QueryStep.t) : bool :=
  existsb (λ substep, startsWith substep "FROM ") (QueryStep.substeps step).

Definition readable (node : QueryStage.t) : bool :=
  forallb hasFrom (readSteps node).

Definition ids (nodes : list QueryStage.t) : list string := QueryStage.id <$> nodes.

(** Everything [getReads] returns for a readable stage. *)
Definition reads (node : QueryStage.t) : list string :=
  readReferences node ++ inputReferences node.

Definition allReads (stages : list QueryStage.t) : list string :=
  stages ≫= reads.

(** The identifiers of [sources] that are not [known], each once, in the
    order of their first occurrence. *)
Fixpoint newSources (known sources : list string) : list string :=
  match sources with
  | [] => []
  | r :: rs =>
      if decide (r ∈ known) then newSources known rs
      else r :: newSources (known ++ [r]) rs
  end.

(** The edge pushed for the read [sourceNodeId] of the stage [node] at
    position [to], resolved in the array [nodes]. *)
Definition edgeFor (nodes : list QueryStage.t) (to : nat) (node : QueryStage.t)
    (sourceNodeId : string) : Edge.t :=
  {| Edge.from := fst <$> getNode nodes sourceNodeId;
     Edge.to := to;
     Edge.outputName := QueryStage.name node |}.

(** The edges pushed while the loop visits the stages [todo], the first
    of which is at position [i]; [final] is the array when the loop ends. *)
Fixpoint edgesFrom (final : list QueryStage.t) (i : nat) (todo : list QueryStage.t)
    : list Edge.t :=
  match todo with
  | [] => []
  | node :: rest => (edgeFor final i node <$> reads node) ++ edgesFrom final (S i) rest
  end.

(** The object after [improveNodeInfo] has run on it. *)
Definition improved (plan : Job.t) (node : QueryStage.t) : QueryStage.t :=
  match improveNodeInfo plan node with
  | Normal node' => node'
  | Throw _ => node
  end.

(** The fields of a stage that [rest_interfaces.ts] declares. *)
Definition declaredFields (node : QueryStage.t) :=
  (QueryStage.id node, QueryStage.name node, QueryStage.steps node,
   QueryStage.inputStages node, QueryStage.startMs node, QueryStage.endMs node,
   (QueryStage.waitMsAvg node, QueryStage.waitMsMax node,
    QueryStage.readMsAvg node, QueryStage.readMsMax node),
   (QueryStage.computeMsAvg node, QueryStage.computeMsMax node,
    QueryStage.writeMsAvg node, QueryStage.writeMsMax node),
   QueryStage.isExternal node).

(** The keys under which [improveNodeInfo] stores what it derives. *)
Definition displayKeys : list string :=
  ["durationMs  "; "wait (ms)   "; "read (ms)   "; "compute (ms)"; "write (ms)  ";
   "startTime   "; "endTime     "; "start %     "; "end %       "].

(** The array [this.nodes] before enrichment. *)
Definition grownPlan (stages : list QueryStage.t) : list QueryStage.t :=
  stages ++ (ghostNode <$> newSources (ids stages) (allReads stages)).

(** The distinct source identifiers that the stages read from and that
    are the id of none of them. *)
Definition missingSources (stages : list QueryStage.t) : list string :=
  remove_dups (filter (λ r, r ∉ ids stages) (allReads stages)).

(** The first two validations: [kind] is present and starts with
    ["bigquery"]. *)
Definition validKind (plan : Job.t) : bool :=
  match Job.kind plan with
  | Some kind => startsWith kind "bigquery"
  | None => false
  end.

(** The query-plan array under the statistics block, if there is one. *)
Definition queryPlanOf (plan : Job.t) : option (list QueryStage.t) :=
  statistics ← Job.statistics plan;
  query ← Job.query statistics;
  Job.queryPlan query.

Definition emptyPlan : t := {| nodes := []; edges := []; isValid := false |}.

(** The documents on which the constructor runs to its end: the kind is
    missing or wrong, or there is a statistics block and, if it holds a
    query plan, every stage of the plan is readable. *)
Definition constructible (plan : Job.t) : bool :=
  negb (validKind plan)
  || match Job.statistics plan with
     | None => false
     | Some statistics =>
         match Job.query statistics ≫= Job.queryPlan with
         | None => true
         | Some stages => forallb readable stages
         end
     end.

(** A key that orders the floats other than NaN as the IEEE comparison does. *)
Definition orderKey (s : spec_float) : Z * Z * Z :=
  match s with
  | S754_nan => (0, 0, 0)
  | S754_zero _ => (0, 0, 0)
  | S754_infinity true => (-2, 0, 0)
  | S754_infinity false => (2, 0, 0)
  | S754_finite false m e => (1, e, Z.pos m)
  | S754_finite true m e => (-1, - e, Z.neg m)
  end%Z.

Definition keyLe (k1 k2 : Z * Z * Z) : Prop :=
  (k1.1.1 < k2.1.1
   ∨ (k1.1.1 = k2.1.1 ∧ (k1.1.2 < k2.1.2 ∨ (k1.1.2 = k2.1.2 ∧ k1.2 ≤ k2.2))))%Z.

Definition keyLt (k1 k2 : Z * Z * Z) : Prop :=
  (k1.1.1 < k2.1.1
   ∨ (k1.1.1 = k2.1.1 ∧ (k1.1.2 < k2.1.2 ∨ (k1.1.2 = k2.1.2 ∧ k1.2 < k2.2))))%Z.

(** The references of the stages in the order in which the constructor
    meets them: the position of the reading stage and the identifier read. *)
Fixpoint referencePairs (i : nat) (stages : list QueryStage.t) : list (nat * string) :=
  match stages with
  | [] => []
  | node :: rest => ((λ r, (i, r)) <$> reads node) ++ referencePairs (S i) rest
  end.

(** A value stored on a stage, as a value of the formatted object. *)
Definition statOfDisplay (v : DisplayValue) : StatValue :=
  match v with
  | Text s => SString s
  | NewDate x => SDate x
  end.

(** The value of a key in the formatted object. *)
Definition statEntry (key : string) (fields : list (string * StatValue)) : option StatValue :=
  snd <$> (snd <$> list_find (λ kv, kv.1 = key) fields).

(** The keys of the formatted object and the display keys of the stage
    that hold the same information. *)
Definition sharedKeys : list (string * string) :=
  [("wait (ms)      ", "wait (ms)   "); ("read (ms)      ", "read (ms)   ");
   ("compute (ms)   ", "compute (ms)"); ("write (ms)     ", "write (ms)  ");
   ("startTime      ", "startTime   "); ("endTime        ", "endTime     ");
   ("start %        ", "start %     "); ("end %          ", "end %       ")].

(** ** Proofs *)

(** *** Strings, and what [getReads] returns *)

Lemma split_not_nil sep s : split sep s ≠ [].
Proof. destruct s as [|c s]; simpl; [done|]. by repeat case_match. Qed.

Lemma prefix_String a p s :
  String.prefix (String a p) s = true →
  ∃ s', s = String a s' ∧ String.prefix p s' = true.
Proof.
  destruct s as [|b s]; [done|].
  change (String.prefix (String a p) (String b s))
    with (if ascii_dec a b then String.prefix p s else false).
  destruct (ascii_dec a b) as [->|]; [eauto|done].
Qed.

Lemma split_FROM s :
  startsWith s "FROM " = true → ∃ item, split " "%char s !! 1 = Some item.
Proof.
  unfold startsWith. intros Hp.
  do 5 (apply prefix_String in Hp as (s' & -> & Hp); rename s' into s).
  destruct (split " "%char s) as [|item items] eqn:Hs.
  { by apply split_not_nil in Hs. }
  exists item. simpl. by rewrite Hs.
Qed.

Lemma find_hasFrom step :
  hasFrom step = true →
  ∃ readSubstep,
    List.find (λ substep, startsWith substep "FROM ") (QueryStep.substeps step)
    = Some readSubstep ∧ startsWith readSubstep "FROM " = true.
Proof.
  unfold hasFrom. induction (QueryStep.substeps step) as [|s l IH]; simpl; [done|].
  destruct (startsWith s "FROM ") eqn:Hs; simpl; eauto.
Qed.

Lemma find_not_hasFrom step :
  hasFrom step = false →
  List.find (λ substep, startsWith substep "FROM ") (QueryStep.substeps step) = None.
Proof.
  unfold hasFrom. induction (QueryStep.substeps step) as [|s l IH]; simpl; [done|].
  destruct (startsWith s "FROM "); simpl; [done|auto].
Qed.

Lemma readSource_hasFrom step :
  hasFrom step = true →
  ∃ item, fromToken step = Some item
          ∧ readSource step = Normal (if startsWith item "__" then None else Some item).
Proof.
  intros (readSubstep & Hfind & Hfrom)%find_hasFrom.
  destruct (split_FROM _ Hfrom) as [item Hitem].
  exists item. unfold fromToken, readSource. rewrite Hfind. simpl. by rewrite Hitem.
Qed.

Lemma readSource_not_hasFrom step :
  hasFrom step = false → ∃ e, readSource step = Throw e.
Proof. intros Hf%find_not_hasFrom. unfold readSource. rewrite Hf. eauto. Qed.

Lemma mapThrowing_readSource steps :
  forallb hasFrom steps = true →
  ∃ items, mapThrowing readSource steps = Normal items
           ∧ truthyItems items = omap stepReference steps.
Proof.
  induction steps as [|step steps IH]; simpl; [by eexists|].
  intros [Hstep Hsteps]%andb_prop.
  destruct (IH Hsteps) as (items & -> & Hitems).
  destruct (readSource_hasFrom _ Hstep) as (item & Htok & ->). simpl.
  eexists; split; [done|].
  unfold truthyItems in *.
  change (omap ?f (?x :: ?l)) with (match f x with Some y => y :: omap f l | None => omap f l end).
  rewrite Hitems. unfold stepReference at 1 3. rewrite Htok. simpl.
  destruct (startsWith item "__"); simpl; [done|].
  by destruct (String.eqb item "").
Qed.

Lemma mapThrowing_readSource_throw steps :
  forallb hasFrom steps = false → ∃ e, mapThrowing readSource steps = Throw e.
Proof.
  induction steps as [|step steps IH]; simpl; [done|].
  destruct (hasFrom step) eqn:Hstep; simpl.
  - intros [e ->]%IH.
    destruct (readSource_hasFrom _ Hstep) as (item & _ & ->). simpl. eauto.
  - intros _. destruct (readSource_not_hasFrom _ Hstep) as [e ->]. simpl. eauto.
Qed.

(** On a readable stage [getReads] returns the read references followed
    by the input-stage references. *)
Lemma getReads_readable node :
  readable node = true →
  getReads node = Normal (readReferences node ++ inputReferences node).
Proof.
  unfold readable, readReferences, inputReferences, readSteps, getReads.
  destruct (QueryStage.steps node) as [steps|]; simpl.
  - intros (items & Hitems & Htruthy)%mapThrowing_readSource.
    rewrite Hitems. simpl. rewrite Htruthy.
    destruct (QueryStage.inputStages node); simpl; [done|by rewrite app_nil_r].
  - done.
Qed.

(** On any other stage it throws. *)
Lemma getReads_unreadable node :
  readable node = false → ∃ e, getReads node = Throw e.
Proof.
  unfold readable, readSteps, getReads.
  destruct (QueryStage.steps node) as [steps|]; simpl; [|done].
  intros [e ->]%mapThrowing_readSource_throw. simpl. eauto.
Qed.

(** *** Node lookup and new sources *)

Lemma getNode_Some nodes id j x :
  getNode nodes id = Some (j, x) → nodes !! j = Some x ∧ QueryStage.id x = id.
Proof. unfold getNode. intros (? & ? & _)%list_find_Some. done. Qed.

Lemma getNode_None nodes id : getNode nodes id = None ↔ id ∉ ids nodes.
Proof.
  unfold getNode, ids. rewrite list_find_None, Forall_forall, list_elem_of_fmap.
  split.
  - intros Hall (x & Hid & Hx). by apply (Hall x).
  - intros Hnot x Hx Hid. apply Hnot. eauto.
Qed.

Lemma getNode_is_Some nodes id : id ∈ ids nodes → is_Some (getNode nodes id).
Proof.
  intros Hin. destruct (getNode nodes id) eqn:Hg; [done|].
  by apply getNode_None in Hg.
Qed.

Lemma getNode_app nodes more id :
  is_Some (getNode nodes id) → getNode (nodes ++ more) id = getNode nodes id.
Proof.
  intros [[j x] Hg]. rewrite Hg. unfold getNode in *. by apply list_find_app_l.
Qed.

Lemma getNode_fresh nodes id :
  getNode nodes id = None →
  getNode (nodes ++ [ghostNode id]) id = Some (length nodes, ghostNode id).
Proof.
  unfold getNode. intros Hg. rewrite list_find_app_r by done. simpl.
  rewrite decide_True by done. done.
Qed.

Lemma ids_app l1 l2 : ids (l1 ++ l2) = ids l1 ++ ids l2.
Proof. apply fmap_app. Qed.

Lemma ids_ghosts l : ids (ghostNode <$> l) = l.
Proof. unfold ids. induction l as [|x l IH]; csimpl; [done|]. by rewrite IH. Qed.

Lemma elem_of_newSources known sources x :
  x ∈ newSources known sources ↔ x ∈ sources ∧ x ∉ known.
Proof.
  revert known. induction sources as [|r rs IH]; intros known; simpl.
  { split; [by intros ?%elem_of_nil|by intros [?%elem_of_nil _]]. }
  destruct (decide (r ∈ known)) as [Hr|Hr].
  - rewrite IH, elem_of_cons. split.
    + intros [? ?]. split; [by right|done].
    + intros [[->|?] ?]; done.
  - rewrite !elem_of_cons, IH, elem_of_app, list_elem_of_singleton.
    destruct (decide (x = r)) as [->|]; intuition congruence.
Qed.

Lemma NoDup_newSources known sources : NoDup (newSources known sources).
Proof.
  revert known. induction sources as [|r rs IH]; intros known; simpl.
  { constructor. }
  destruct (decide (r ∈ known)); [done|].
  constructor; [|done]. rewrite elem_of_newSources, elem_of_app, list_elem_of_singleton.
  intros [_ Hnew]. apply Hnew. by right.
Qed.

Lemma newSources_app known s1 s2 :
  newSources known (s1 ++ s2)
  = newSources known s1 ++ newSources (known ++ newSources known s1) s2.
Proof.
  revert known. induction s1 as [|r rs IH]; intros known; simpl.
  { by rewrite app_nil_r. }
  destruct (decide (r ∈ known)); [done|].
  rewrite IH. simpl. by rewrite <- (assoc_L (++)).
Qed.

Lemma length_newSources known sources :
  length (newSources known sources) ≤ length sources.
Proof.
  revert known. induction sources as [|r rs IH]; intros known; simpl; [done|].
  destruct (decide (r ∈ known)); simpl; [|apply le_n_S]; etrans; try apply IH; lia.
Qed.

(** *** The two loops that add ghost nodes and edges *)

Lemma getNode_elem_of nodes id p : getNode nodes id = Some p → id ∈ ids nodes.
Proof.
  intros Hg. destruct (decide (id ∈ ids nodes)) as [|Hn]; [done|].
  apply getNode_None in Hn. congruence.
Qed.

Lemma edgeFor_app nodes more to node r :
  is_Some (getNode nodes r) → edgeFor (nodes ++ more) to node r = edgeFor nodes to node r.
Proof. intros Hs. unfold edgeFor. by rewrite getNode_app. Qed.

(** The inner loop, for the reads [rs] of the stage at position [to]. *)
Lemma foldl_addSource to node rs nodes edges :
  let nodes' := nodes ++ (ghostNode <$> newSources (ids nodes) rs) in
  foldl (addSource to node) (nodes, edges) rs
  = (nodes', edges ++ (edgeFor nodes' to node <$> rs))
    ∧ Forall (λ r, is_Some (getNode nodes' r)) rs.
Proof.
  revert nodes edges. induction rs as [|r rs IH]; intros nodes edges; cbv zeta.
  { simpl. by rewrite !app_nil_r. }
  cbn [foldl newSources]. unfold addSource at 2. cbn [fst snd].
  destruct (getNode nodes r) as [p|] eqn:Hg.
  - assert (is_Some (getNode nodes r)) as Hs by (rewrite Hg; eauto).
    rewrite decide_True by (by eapply getNode_elem_of).
    destruct (IH nodes (edges ++ [edgeFor nodes to node r])) as [Heq Hall].
    unfold edgeFor at 1 in Heq. rewrite Heq. split.
    + rewrite fmap_cons, edgeFor_app by done. by rewrite <- (assoc_L (++)).
    + constructor; [|done]. by rewrite getNode_app.
  - pose proof (getNode_fresh _ _ Hg) as Hf.
    assert (is_Some (getNode (nodes ++ [ghostNode r]) r)) as Hs by (rewrite Hf; eauto).
    rewrite decide_False by (by apply getNode_None).
    destruct (IH (nodes ++ [ghostNode r])
                (edges ++ [edgeFor (nodes ++ [ghostNode r]) to node r])) as [Heq Hall].
    unfold edgeFor at 1 in Heq. rewrite Heq. clear Heq.
    rewrite ids_app in *. change (ids [ghostNode r]) with [r] in *.
    set (G := newSources (ids nodes ++ [r]) rs) in *.
    replace (nodes ++ (ghostNode <$> r :: G))
      with ((nodes ++ [ghostNode r]) ++ (ghostNode <$> G))
      by (by rewrite fmap_cons, <- (assoc_L (++))).
    split.
    + rewrite fmap_cons, (edgeFor_app (nodes ++ [ghostNode r])) by done.
      by rewrite <- (assoc_L (++) edges).
    + constructor; [|done]. by rewrite getNode_app.
Qed.

Lemma getReads_ghost node : QueryStage.steps node = None → getReads node = Normal [].
Proof. unfold getReads. by intros ->. Qed.

Lemma lookup_middle (done rest : list QueryStage.t) node :
  (done ++ node :: rest) !! length done = Some node.
Proof. by rewrite list_lookup_middle. Qed.

(** Visiting objects without steps changes nothing. *)
Lemma loop_ghosts gs : ∀ done edges fuel,
  Forall (λ g, QueryStage.steps g = None) gs →
  length gs < fuel →
  addGhostNodesAndEdges fuel (length done) (done ++ gs, edges)
  = ((done ++ gs, edges), Completed).
Proof.
  induction gs as [|g gs IH]; intros done edges fuel Hgs Hfuel.
  - destruct fuel as [|fuel]; [simpl in Hfuel; lia|]. simpl.
    rewrite app_nil_r, lookup_ge_None_2 by done. done.
  - destruct fuel as [|fuel]; [simpl in Hfuel; lia|].
    apply Forall_cons in Hgs as [Hg Hgs].
    cbn [addGhostNodesAndEdges fst]. rewrite lookup_middle, (getReads_ghost _ Hg).
    cbn [foldl]. specialize (IH (done ++ [g]) edges fuel Hgs).
    rewrite length_app, Nat.add_1_r, <- (assoc_L (++)) in IH.
    apply IH. simpl in Hfuel. lia.
Qed.

(** The loop on readable stages [todo], followed by objects without steps. *)
Lemma loop_readable todo : ∀ done gs edges fuel,
  Forall (λ node, readable node = true) todo →
  Forall (λ g, QueryStage.steps g = None) gs →
  length todo + length gs + length (allReads todo) < fuel →
  let start := done ++ todo ++ gs in
  let final := start ++ (ghostNode <$> newSources (ids start) (allReads todo)) in
  addGhostNodesAndEdges fuel (length done) (start, edges)
  = ((final, edges ++ edgesFrom final (length done) todo), Completed)
    ∧ Forall (λ r, is_Some (getNode final r)) (allReads todo).
Proof.
  induction todo as [|node todo IH]; intros done gs edges fuel Htodo Hgs Hfuel; cbv zeta.
  - simpl. rewrite !app_nil_r. split; [|constructor].
    apply loop_ghosts; [done|]. simpl in Hfuel. lia.
  - destruct fuel as [|fuel]; [simpl in Hfuel; lia|].
    apply Forall_cons in Htodo as [Hnode Htodo].
    unfold allReads in *. rewrite bind_cons in *. fold (allReads todo) in *.
    rewrite length_app in Hfuel. simpl in Hfuel.
    cbn [addGhostNodesAndEdges fst]. cbn [app].
    rewrite lookup_middle, (getReads_readable _ Hnode). fold (reads node).
    set (start := done ++ node :: todo ++ gs).
    destruct (foldl_addSource (length done) node (reads node) start edges) as [-> Hreads].
    set (ns := newSources (ids start) (reads node)) in *.
    pose proof (length_newSources (ids start) (reads node)) as Hlen. fold ns in Hlen.
    assert (start ++ (ghostNode <$> ns) = (done ++ [node]) ++ todo ++ (gs ++ (ghostNode <$> ns)))
      as Hstart.
    { unfold start. rewrite <- !(assoc_L (++)). simpl. by rewrite <- !(assoc_L (++)). }
    destruct (IH (done ++ [node]) (gs ++ (ghostNode <$> ns))
                (edges ++ (edgeFor (start ++ (ghostNode <$> ns)) (length done) node <$> reads node))
                fuel Htodo) as [Hloop Hall].
    { apply Forall_app. split; [done|]. by apply Forall_fmap, Forall_true. }
    { rewrite length_app, length_fmap. lia. }
    rewrite <- Hstart in Hloop, Hall. rewrite length_app, Nat.add_1_r in Hloop.
    rewrite ids_app, ids_ghosts in Hloop, Hall. fold ns in Hloop, Hall.
    rewrite newSources_app. fold ns. rewrite fmap_app, (assoc_L (++)).
    set (final := (start ++ (ghostNode <$> ns))
                  ++ (ghostNode <$> newSources (ids start ++ ns) (allReads todo))) in *.
    rewrite Hloop. split.
    + rewrite <- (assoc_L (++) edges). do 3 f_equal. cbn [edgesFrom]. f_equal.
      apply list_fmap_ext. intros k r Hr. symmetry.
      apply edgeFor_app. exact (Forall_lookup_1 _ _ _ _ Hreads Hr).
    + apply Forall_app. split; [|done].
      eapply Forall_impl; [exact Hreads|]. intros r Hr. simpl.
      unfold final. by rewrite getNode_app.
Qed.

(** The loop stops with an exception at the first stage that is not
    readable. *)
Lemma loop_unreadable good : ∀ done bad rest edges fuel,
  Forall (λ node, readable node = true) good →
  readable bad = false →
  length good + length (allReads good) < fuel →
  ∃ st e, addGhostNodesAndEdges fuel (length done) (done ++ good ++ bad :: rest, edges)
          = (st, Threw e).
Proof.
  induction good as [|node good IH]; intros done bad rest edges fuel Hgood Hbad Hfuel.
  - destruct fuel as [|fuel]; [simpl in Hfuel; lia|].
    cbn [addGhostNodesAndEdges fst app]. rewrite lookup_middle.
    destruct (getReads_unreadable _ Hbad) as [e ->]. eauto.
  - destruct fuel as [|fuel]; [simpl in Hfuel; lia|].
    apply Forall_cons in Hgood as [Hnode Hgood].
    unfold allReads in Hfuel. rewrite bind_cons, length_app in Hfuel.
    fold (allReads good) in Hfuel. simpl in Hfuel.
    cbn [addGhostNodesAndEdges fst app].
    rewrite lookup_middle, (getReads_readable _ Hnode). fold (reads node).
    set (start := done ++ node :: good ++ bad :: rest).
    destruct (foldl_addSource (length done) node (reads node) start edges) as [-> _].
    set (ns := newSources (ids start) (reads node)).
    assert (start ++ (ghostNode <$> ns)
            = (done ++ [node]) ++ good ++ bad :: (rest ++ (ghostNode <$> ns))) as ->.
    { unfold start. rewrite <- !(assoc_L (++)). simpl. by rewrite <- !(assoc_L (++)). }
    replace (S (length done)) with (length (done ++ [node]))
      by (rewrite length_app; simpl; lia).
    apply IH; [done|done|lia].
Qed.

Lemma length_omap_le {A B} (f : A → option B) (l : list A) :
  length (omap f l) ≤ length l.
Proof.
  induction l as [|x l IH]; [done|].
  change (omap f (x :: l))
    with (match f x with Some y => y :: omap f l | None => omap f l end).
  destruct (f x); simpl; lia.
Qed.

Lemma length_reads node : length (reads node) ≤ readCapacity node.
Proof.
  unfold reads, readCapacity, readReferences, readSteps, inputReferences.
  rewrite length_app.
  destruct (QueryStage.steps node) as [steps|]; simpl; [|lia].
  apply Nat.add_le_mono; [|done].
  etrans; [apply length_omap_le|]. apply List.filter_length_le.
Qed.

Lemma length_allReads stages :
  length (allReads stages) ≤ sum_list_with readCapacity stages.
Proof.
  unfold allReads. induction stages as [|node stages IH]; [done|].
  rewrite bind_cons, length_app. simpl.
  pose proof (length_reads node). lia.
Qed.

(** Either every stage is readable, or there is a first one that is not. *)
Lemma readable_split (stages : list QueryStage.t) :
  Forall (λ node, readable node = true) stages
  ∨ ∃ good bad rest, stages = good ++ bad :: rest
      ∧ Forall (λ node, readable node = true) good ∧ readable bad = false.
Proof.
  induction stages as [|node stages IH]; [by left|].
  destruct (readable node) eqn:Hnode.
  - destruct IH as [Hall|(good & bad & rest & -> & Hgood & Hbad)].
    + left. by constructor.
    + right. exists (node :: good), bad, rest. split; [done|]. split; [by constructor|done].
  - right. exists [], node, stages. split; [done|]. split; [constructor|done].
Qed.

(** The first loop of the constructor, run on the query plan with the
    fuel that the constructor grants. *)
Lemma loop_queryPlan stages :
  let final := stages ++ (ghostNode <$> newSources (ids stages) (allReads stages)) in
  (Forall (λ node, readable node = true) stages
   ∧ addGhostNodesAndEdges (loopBound stages) 0 (stages, [])
     = ((final, edgesFrom final 0 stages), Completed)
   ∧ Forall (λ r, is_Some (getNode final r)) (allReads stages))
  ∨ (Exists (λ node, readable node = false) stages
     ∧ ∃ st e, addGhostNodesAndEdges (loopBound stages) 0 (stages, []) = (st, Threw e)).
Proof.
  cbv zeta. destruct (readable_split stages)
    as [Hall|(good & bad & rest & -> & Hgood & Hbad)].
  - left. split; [done|].
    destruct (loop_readable stages [] [] [] (loopBound stages) Hall) as [Hloop Hsome].
    { constructor. }
    { pose proof (length_allReads stages). unfold loopBound. simpl. lia. }
    simpl in Hloop, Hsome. rewrite !app_nil_r in Hloop, Hsome. done.
  - right. split.
    { apply Exists_app. right. by constructor. }
    apply (loop_unreadable good []); [done|done|].
    pose proof (length_allReads good). unfold loopBound.
    rewrite length_app, sum_list_with_app. lia.
Qed.

(** *** The loop that enriches the nodes *)

Lemma improveNodeInfo_statistics plan stats node :
  Job.statistics plan = Some stats →
  improveNodeInfo plan node = Normal (improved plan node).
Proof.
  intros Hstats. unfold improved, improveNodeInfo. rewrite Hstats.
  by repeat case_match.
Qed.

Lemma improveAll_statistics plan stats nodes :
  Job.statistics plan = Some stats →
  improveAll plan nodes = (improved plan <$> nodes, Completed).
Proof.
  intros Hstats. induction nodes as [|node nodes IH]; [done|].
  cbn [improveAll]. rewrite (improveNodeInfo_statistics _ _ _ Hstats), IH. done.
Qed.

Lemma improved_declaredFields plan node :
  declaredFields (improved plan node) = declaredFields node.
Proof.
  unfold improved, improveNodeInfo. by repeat case_match; simplify_eq.
Qed.

Lemma improved_id plan node : QueryStage.id (improved plan node) = QueryStage.id node.
Proof. pose proof (improved_declaredFields plan node) as Hf. by injection Hf. Qed.

Lemma improved_name plan node : QueryStage.name (improved plan node) = QueryStage.name node.
Proof. pose proof (improved_declaredFields plan node) as Hf. by injection Hf. Qed.

Lemma improved_props plan node key :
  key ∉ displayKeys →
  QueryStage.props (improved plan node) !! key = QueryStage.props node !! key.
Proof.
  intros Hkey. unfold improved, improveNodeInfo.
  repeat case_match; simplify_eq; try done.
  cbn [QueryStage.setProp QueryStage.props].
  rewrite !lookup_insert_ne; [done|..]; intros <-; apply Hkey; unfold displayKeys;
    repeat ((by apply list_elem_of_here) || apply list_elem_of_further).
Qed.

Lemma improved_untimed plan node :
  truthy (QueryStage.startMs node) = false ∨ truthy (QueryStage.endMs node) = false →
  improved plan node = node.
Proof.
  intros Hor. unfold improved, improveNodeInfo.
  by destruct Hor as [-> | ->]; rewrite ?orb_true_r.
Qed.

Lemma improved_ghost plan id : improved plan (ghostNode id) = ghostNode id.
Proof. apply improved_untimed. by left. Qed.

(** *** The constructor on a document that passes the validations *)

Lemma constructor_readable plan kind stats stages :
  Job.kind plan = Some kind →
  startsWith kind "bigquery" = true →
  Job.statistics plan = Some stats →
  Job.query stats ≫= Job.queryPlan = Some stages →
  Forall (λ node, readable node = true) stages →
  constructor plan
  = {| this := {| nodes := improved plan <$> grownPlan stages;
                  edges := edgesFrom (grownPlan stages) 0 stages;
                  isValid := true |};
       log := [];
       result := Completed |}.
Proof.
  intros Hkind Hbq Hstats Hplan Hall. unfold constructor.
  rewrite Hkind, Hbq, Hstats, Hplan. cbn [negb].
  destruct (loop_queryPlan stages) as [(_ & -> & _)|(Hex & _)].
  - cbn [fst snd]. by rewrite (improveAll_statistics _ _ _ Hstats).
  - exfalso. apply Exists_exists in Hex as (node & Hin & Hnode).
    rewrite Forall_forall in Hall. specialize (Hall _ Hin). congruence.
Qed.

Lemma constructor_unreadable plan kind stats stages :
  Job.kind plan = Some kind →
  startsWith kind "bigquery" = true →
  Job.statistics plan = Some stats →
  Job.query stats ≫= Job.queryPlan = Some stages →
  Exists (λ node, readable node = false) stages →
  ∃ e, result (constructor plan) = Threw e ∧ isValid (this (constructor plan)) = true
       ∧ log (constructor plan) = [].
Proof.
  intros Hkind Hbq Hstats Hplan Hex. unfold constructor.
  rewrite Hkind, Hbq, Hstats, Hplan. cbn [negb].
  destruct (loop_queryPlan stages) as [(Hall & _)|(_ & st & e & ->)].
  - exfalso. apply Exists_exists in Hex as (node & Hin & Hnode).
    rewrite Forall_forall in Hall. specialize (Hall _ Hin). congruence.
  - exists e. done.
Qed.

Lemma grownPlan_resolves stages r :
  r ∈ allReads stages → is_Some (getNode (grownPlan stages) r).
Proof.
  intros Hr. apply getNode_is_Some. unfold grownPlan.
  rewrite ids_app, ids_ghosts, elem_of_app, elem_of_newSources.
  destruct (decide (r ∈ ids stages)); [by left|by right].
Qed.

Lemma elem_of_allReads stages r :
  r ∈ allReads stages ↔ ∃ node, node ∈ stages ∧ r ∈ reads node.
Proof.
  unfold allReads. rewrite list_elem_of_bind.
  split; intros (node & ? & ?); eauto.
Qed.

Lemma length_edgesFrom final i todo :
  length (edgesFrom final i todo) = sum_list_with (λ node, length (reads node)) todo.
Proof.
  revert i. induction todo as [|node todo IH]; intros i; [done|].
  cbn [edgesFrom sum_list_with]. by rewrite length_app, length_fmap, IH.
Qed.

Lemma elem_of_edgesFrom final i todo e :
  e ∈ edgesFrom final i todo →
  ∃ k node r, todo !! k = Some node ∧ r ∈ reads node ∧ e = edgeFor final (i + k) node r.
Proof.
  revert i. induction todo as [|node todo IH]; intros i; cbn [edgesFrom].
  { by intros ?%elem_of_nil. }
  intros [He|He]%elem_of_app.
  - apply list_elem_of_fmap in He as (r & -> & Hr).
    exists 0, node, r. by rewrite Nat.add_0_r.
  - destruct (IH _ He) as (k & node' & r & Hk & Hr & ->).
    exists (S k), node', r. by rewrite Nat.add_succ_r.
Qed.

Lemma newSources_missingSources stages :
  newSources (ids stages) (allReads stages) ≡ₚ missingSources stages.
Proof.
  apply NoDup_Permutation.
  - apply NoDup_newSources.
  - apply NoDup_remove_dups.
  - intros r. unfold missingSources.
    rewrite elem_of_newSources, elem_of_remove_dups, list_elem_of_filter. tauto.
Qed.

Lemma constructor_wellFormed plan stages :
  validKind plan = true →
  queryPlanOf plan = Some stages →
  Forall (λ node, readable node = true) stages →
  constructor plan
  = {| this := {| nodes := (improved plan <$> stages)
                           ++ (ghostNode <$> newSources (ids stages) (allReads stages));
                  edges := edgesFrom (grownPlan stages) 0 stages;
                  isValid := true |};
       log := [];
       result := Completed |}.
Proof.
  unfold validKind, queryPlanOf. intros Hkind Hplan Hall.
  destruct (Job.kind plan) as [kind|] eqn:Hk; [|done].
  destruct (Job.statistics plan) as [stats|] eqn:Hs; [|done]. simpl in Hplan.
  rewrite (constructor_readable plan kind stats stages); try done.
  unfold grownPlan at 1. rewrite fmap_app. do 3 f_equal.
  rewrite <- list_fmap_compose. apply list_fmap_ext. intros i r _. apply improved_ghost.
Qed.

(** C1: for a well-formed document (valid kind, query plan present, every
    READ step naming its source) whose stages read from M distinct
    identifiers that are the id of no stage, the constructor appends
    exactly M ghost nodes to the stages; each has a source identifier as
    id and name, [isExternal = true] and no steps, and no two ghost nodes
    have the same identifier, however many stages read from it.  The
    identifiers a stage reads from are those that [getReads] returns. *)
Theorem ghost_nodes_added plan stages :
  validKind plan = true →
  queryPlanOf plan = Some stages →
  Forall (λ node, readable node = true) stages →
  ∃ ghosts,
    result (constructor plan) = Completed
    ∧ Forall (λ node, getReads node = Normal (reads node)) stages
    ∧ nodes (this (constructor plan)) = (improved plan <$> stages) ++ ghosts
    ∧ length ghosts = length (missingSources stages)
    ∧ NoDup (ids ghosts)
    ∧ (∀ r, r ∈ ids ghosts ↔ r ∈ allReads stages ∧ r ∉ ids stages)
    ∧ Forall (λ ghost,
                QueryStage.name ghost = QueryStage.id ghost
                ∧ QueryStage.isExternal ghost = Some true
                ∧ QueryStage.steps ghost = None) ghosts.
Proof.
  intros Hkind Hplan Hall.
  rewrite (constructor_wellFormed plan stages Hkind Hplan Hall). cbn [this nodes result].
  exists (ghostNode <$> newSources (ids stages) (allReads stages)).
  rewrite ids_ghosts, length_fmap.
  split; [done|]. split.
  { eapply Forall_impl; [exact Hall|]. intros node. apply getReads_readable. }
  split; [done|]. split.
  { apply Permutation_length, newSources_missingSources. }
  split; [apply NoDup_newSources|]. split.
  { intros r. apply elem_of_newSources. }
  by apply Forall_fmap, Forall_true.
Qed.

(** C2: after the construction of a valid plan there is one edge for
    each read reference and each input-stage reference of each stage, and
    both ends of every edge are objects of the final array of nodes: the
    source has the identifier that was read, the target is the stage that
    reads it, whose name labels the edge. *)
Theorem edges_counted_and_anchored plan stages :
  validKind plan = true →
  queryPlanOf plan = Some stages →
  Forall (λ node, readable node = true) stages →
  let p := this (constructor plan) in
  result (constructor plan) = Completed
  ∧ Forall (λ node,
              getReads node = Normal (readReferences node ++ inputReferences node)) stages
  ∧ length (edges p)
    = sum_list_with
        (λ node, length (readReferences node) + length (inputReferences node)) stages
  ∧ Forall (λ e, ∃ j src dst stage,
              Edge.from e = Some j
              ∧ nodes p !! j = Some src
              ∧ nodes p !! Edge.to e = Some dst
              ∧ stages !! Edge.to e = Some stage
              ∧ QueryStage.id dst = QueryStage.id stage
              ∧ QueryStage.id src ∈ reads stage
              ∧ Edge.outputName e = QueryStage.name dst) (edges p).
Proof.
  intros Hkind Hplan Hall p. unfold p.
  rewrite (constructor_wellFormed plan stages Hkind Hplan Hall). cbn [this nodes edges result].
  split; [done|]. split; [|split].
  - eapply Forall_impl; [exact Hall|]. intros node. apply getReads_readable.
  - rewrite length_edgesFrom. clear. induction stages as [|node stages IH]; [done|].
    cbn [sum_list_with]. unfold reads at 1. by rewrite length_app, IH.
  - apply Forall_forall. intros e (k & stage & r & Hk & Hr & ->)%elem_of_edgesFrom.
    assert (r ∈ allReads stages) as Hin.
    { apply elem_of_allReads. exists stage. split; [|done]. by eapply list_elem_of_lookup_2. }
    destruct (grownPlan_resolves stages r Hin) as [[j src] Hg].
    destruct (getNode_Some _ _ _ _ Hg) as [Hj Hid].
    exists j, (improved plan src), (improved plan stage), stage.
    unfold edgeFor. rewrite Hg. cbn [Edge.from Edge.to Edge.outputName fmap option_fmap option_map fst].
    rewrite Nat.add_0_l.
    assert (((improved plan <$> stages)
             ++ (ghostNode <$> newSources (ids stages) (allReads stages)))
            = improved plan <$> grownPlan stages) as ->.
    { unfold grownPlan. rewrite fmap_app. f_equal.
      rewrite <- list_fmap_compose. apply list_fmap_ext. intros i s _.
      symmetry. apply improved_ghost. }
    rewrite !list_lookup_fmap, Hj. unfold grownPlan at 1.
    rewrite (lookup_app_l_Some _ _ _ _ Hk). cbn [fmap option_fmap option_map].
    rewrite improved_id, improved_name, improved_id, Hid. done.
Qed.

(** *** The constructor on a document that fails a validation *)

Lemma constructor_no_kind plan :
  Job.kind plan = None →
  constructor plan
  = {| this := emptyPlan; log := [(Warn, "No plan document found in job.")];
       result := Completed |}.
Proof. intros Hkind. unfold constructor. by rewrite Hkind. Qed.

Lemma constructor_wrong_kind plan kind :
  Job.kind plan = Some kind →
  startsWith kind "bigquery" = false →
  constructor plan
  = {| this := emptyPlan;
       log := [(Warn, "Retrieved document is not of kind bigquery but of kind "
                      +:+ kind +:+ ".")];
       result := Completed |}.
Proof. intros Hkind Hbq. unfold constructor. by rewrite Hkind, Hbq. Qed.

Lemma constructor_no_statistics plan :
  validKind plan = true →
  Job.statistics plan = None →
  constructor plan
  = {| this := emptyPlan; log := [];
       result := Threw (TypeError "Cannot read property 'query' of undefined") |}.
Proof.
  unfold validKind, constructor. intros Hkind Hstats.
  destruct (Job.kind plan); [|done]. by rewrite Hkind, Hstats.
Qed.

Lemma constructor_no_queryPlan plan stats :
  validKind plan = true →
  Job.statistics plan = Some stats →
  Job.query stats ≫= Job.queryPlan = None →
  constructor plan
  = {| this := emptyPlan;
       log := [(Warn, "No query found in job " +:+ template (Job.id plan))];
       result := Completed |}.
Proof.
  unfold validKind, constructor. intros Hkind Hstats Hplan.
  destruct (Job.kind plan); [|done]. by rewrite Hkind, Hstats, Hplan.
Qed.

Lemma queryPlanOf_statistics plan stats :
  Job.statistics plan = Some stats →
  queryPlanOf plan = Job.query stats ≫= Job.queryPlan.
Proof. unfold queryPlanOf. by intros ->. Qed.

(** Without a valid kind and a query plan the instance stays empty. *)
Lemma constructor_invalid plan :
  validKind plan = false ∨ queryPlanOf plan = None →
  this (constructor plan) = emptyPlan.
Proof.
  intros Hor. destruct (Job.kind plan) as [kind|] eqn:Hkind.
  2: { by rewrite constructor_no_kind. }
  destruct (startsWith kind "bigquery") eqn:Hbq.
  2: { by rewrite (constructor_wrong_kind _ kind). }
  assert (validKind plan = true) as Hvalid by (unfold validKind; by rewrite Hkind).
  destruct Hor as [Hor|Hplan]; [congruence|].
  destruct (Job.statistics plan) as [stats|] eqn:Hstats.
  2: { by rewrite constructor_no_statistics. }
  rewrite (queryPlanOf_statistics _ _ Hstats) in Hplan.
  by rewrite (constructor_no_queryPlan _ stats).
Qed.

(** A construction that completes on a valid document had only readable
    stages. *)
Lemma completed_readable plan stages :
  validKind plan = true →
  queryPlanOf plan = Some stages →
  result (constructor plan) = Completed →
  Forall (λ node, readable node = true) stages.
Proof.
  intros Hvalid Hplan Hdone.
  destruct (loop_queryPlan stages) as [(Hall & _)|(Hex & _)]; [done|].
  exfalso. unfold validKind in Hvalid.
  destruct (Job.kind plan) as [kind|] eqn:Hkind; [|done].
  destruct (Job.statistics plan) as [stats|] eqn:Hstats.
  2: { unfold queryPlanOf in Hplan. by rewrite Hstats in Hplan. }
  rewrite (queryPlanOf_statistics _ _ Hstats) in Hplan.
  destruct (constructor_unreadable plan kind stats stages) as (e & He & _); try done.
  congruence.
Qed.

(** *** Identifiers that start with two underscores *)

Lemma stepReference_no_underscore step r :
  stepReference step = Some r → startsWith r "__" = false ∧ r ≠ "".
Proof.
  unfold stepReference. destruct (fromToken step) as [item|]; simpl; [|done].
  destruct (startsWith item "__") eqn:Hu; simpl; [done|].
  destruct (String.eqb item "") eqn:He; [done|].
  intros [= <-]. split; [done|]. by apply String.eqb_neq.
Qed.

Lemma readReferences_no_underscore node r :
  r ∈ readReferences node → startsWith r "__" = false.
Proof.
  unfold readReferences. intros (step & _ & Hstep)%list_elem_of_omap.
  apply stepReference_no_underscore in Hstep as [? _]. done.
Qed.

Lemma inputReferences_inputStages node r :
  r ∈ inputReferences node → r ∈ default [] (QueryStage.inputStages node).
Proof.
  unfold inputReferences. destruct (QueryStage.steps node); [done|].
  by intros ?%elem_of_nil.
Qed.

Lemma reads_underscore node r :
  r ∈ reads node → startsWith r "__" = true →
  r ∈ default [] (QueryStage.inputStages node).
Proof.
  unfold reads. intros [Hr|Hr]%elem_of_app Hu.
  - apply readReferences_no_underscore in Hr. congruence.
  - by apply inputReferences_inputStages.
Qed.

Lemma getReads_reads node rs : getReads node = Normal rs → rs = reads node.
Proof.
  intros Hg. destruct (readable node) eqn:Hr.
  - rewrite (getReads_readable _ Hr) in Hg. by injection Hg.
  - destruct (getReads_unreadable _ Hr) as [e He]. congruence.
Qed.

(** C3, amended: an identifier that starts with two underscores is never
    taken as a read source from the token after ["FROM "] of a read
    substep: what [getReads] returns is the read references, none of which
    has the prefix, followed by the entries of [inputStages], which are
    included as they are, whatever their prefix.  So in a constructed plan
    every ghost node whose identifier has the prefix stands for an
    input-stage entry of some stage, and every edge whose source has such
    an identifier stands for an input-stage entry of the stage the edge
    leads to. *)
Theorem underscore_source_only_from_inputStages plan :
  let r := constructor plan in
  let stages := default [] (queryPlanOf plan) in
  (∀ node rs,
     getReads node = Normal rs →
     rs = readReferences node ++ inputReferences node
     ∧ (∀ id, id ∈ readReferences node → startsWith id "__" = false)
     ∧ (∀ id, id ∈ inputReferences node → id ∈ default [] (QueryStage.inputStages node))
     ∧ (is_Some (QueryStage.steps node) →
        inputReferences node = default [] (QueryStage.inputStages node)))
  ∧ (result r = Completed →
     (∀ ghost,
        ghost ∈ drop (length stages) (nodes (this r)) →
        startsWith (QueryStage.id ghost) "__" = true →
        ∃ stage, stage ∈ stages
                 ∧ QueryStage.id ghost ∈ default [] (QueryStage.inputStages stage))
     ∧ (∀ e j src,
          e ∈ edges (this r) → Edge.from e = Some j → nodes (this r) !! j = Some src →
          startsWith (QueryStage.id src) "__" = true →
          ∃ stage, stages !! Edge.to e = Some stage
                   ∧ QueryStage.id src ∈ default [] (QueryStage.inputStages stage))).
Proof.
  cbv zeta. split.
  { intros node rs Hg. apply getReads_reads in Hg as ->.
    split; [done|]. split; [apply readReferences_no_underscore|].
    split; [apply inputReferences_inputStages|].
    intros [steps Hsteps]. unfold inputReferences. by rewrite Hsteps. }
  intros Hdone.
  destruct (validKind plan) eqn:Hvalid.
  2: { rewrite (constructor_invalid plan) by (by left). unfold emptyPlan. cbn [nodes edges].
       rewrite drop_nil. split; [by intros ? ?%elem_of_nil|by intros ? ? ? ?%elem_of_nil]. }
  destruct (queryPlanOf plan) as [stages|] eqn:Hplan.
  2: { rewrite (constructor_invalid plan) by (by right). unfold emptyPlan. cbn [nodes edges].
       rewrite drop_nil. split; [by intros ? ?%elem_of_nil|by intros ? ? ? ?%elem_of_nil]. }
  pose proof (completed_readable _ _ Hvalid Hplan Hdone) as Hall.
  rewrite (constructor_wellFormed plan stages Hvalid Hplan Hall).
  cbn [this nodes edges default]. split.
  - rewrite drop_app_length' by by rewrite length_fmap.
    intros ghost (id & -> & Hid)%list_elem_of_fmap Hu. cbn [ghostNode QueryStage.id] in *.
    apply elem_of_newSources in Hid as [Hid _].
    apply elem_of_allReads in Hid as (stage & Hstage & Hid).
    exists stage. split; [done|]. by apply reads_underscore.
  - intros e j src (k & stage & id & Hk & Hid & ->)%elem_of_edgesFrom Hfrom Hsrc Hu.
    cbn [edgeFor Edge.to Edge.from] in *. rewrite Nat.add_0_l.
    exists stage. split; [done|].
    assert (id ∈ allReads stages) as Hin.
    { apply elem_of_allReads. exists stage. split; [|done]. by eapply list_elem_of_lookup_2. }
    destruct (grownPlan_resolves stages id Hin) as [[j' src'] Hg].
    rewrite Hg in Hfrom. cbn in Hfrom. injection Hfrom as ->.
    destruct (getNode_Some _ _ _ _ Hg) as [Hj Hsrc'].
    assert (QueryStage.id src = id) as Heq.
    { unfold grownPlan in Hj.
      destruct (proj1 (lookup_app_Some _ _ _ _) Hj) as [Hl|[Hlen Hr]].
      + rewrite lookup_app_l in Hsrc by (rewrite length_fmap; by eapply lookup_lt_Some).
        rewrite list_lookup_fmap, Hl in Hsrc. injection Hsrc as <-.
        by rewrite improved_id.
      + rewrite lookup_app_r in Hsrc by (by rewrite length_fmap).
        rewrite length_fmap, Hr in Hsrc. by injection Hsrc as <-. }
    rewrite Heq in *. by apply reads_underscore.
Qed.

(** *** Completion of the constructor *)

Lemma forallb_readable stages :
  forallb readable stages = true ↔ Forall (λ node, readable node = true) stages.
Proof. rewrite forallb_forall, Forall_forall. by setoid_rewrite list_elem_of_In. Qed.

Lemma not_forallb_readable stages :
  forallb readable stages = false → Exists (λ node, readable node = false) stages.
Proof.
  induction stages as [|node stages IH]; simpl; [done|].
  destruct (readable node) eqn:Hnode; simpl; [|by left]. right. auto.
Qed.

(** C4, amended: the constructor has no exception handler.  It completes
    without throwing on the documents that are [constructible], and on no
    other: there (a valid kind without a statistics block, or a READ step
    without a substep that starts with ["FROM "]) a [TypeError] leaves the
    constructor.  A validation that fails leaves [isValid = false] behind,
    and on a completed construction [isValid] tells whether the three
    validations passed.  The loop over the growing array always ends. *)
Theorem completes_iff_constructible plan :
  (constructible plan = true → result (constructor plan) = Completed)
  ∧ (constructible plan = false → ∃ e, result (constructor plan) = Threw e)
  ∧ (result (constructor plan) = Completed →
     isValid (this (constructor plan))
     = validKind plan && bool_decide (is_Some (queryPlanOf plan)))
  ∧ result (constructor plan) ≠ OutOfFuel.
Proof.
  unfold constructible.
  destruct (Job.kind plan) as [kind|] eqn:Hkind.
  2: { rewrite constructor_no_kind by done. unfold validKind. rewrite Hkind. done. }
  destruct (startsWith kind "bigquery") eqn:Hbq.
  2: { rewrite (constructor_wrong_kind _ kind) by done.
       unfold validKind. rewrite Hkind, Hbq. done. }
  assert (validKind plan = true) as Hvalid by (unfold validKind; by rewrite Hkind).
  rewrite Hvalid. cbn [negb orb andb].
  destruct (Job.statistics plan) as [stats|] eqn:Hstats.
  2: { rewrite constructor_no_statistics by done. cbn [result].
       split; [done|]. split; [eauto|done]. }
  rewrite (queryPlanOf_statistics _ _ Hstats).
  destruct (Job.query stats ≫= Job.queryPlan) as [stages|] eqn:Hplan.
  2: { rewrite (constructor_no_queryPlan _ stats) by done. cbn [result this].
       split; [done|]. split; [done|]. split; [|done]. intros _.
       unfold emptyPlan. cbn [isValid].
       rewrite bool_decide_eq_false_2; [done|]. by intros [? ?]. }
  destruct (forallb readable stages) eqn:Hall.
  - apply forallb_readable in Hall.
    rewrite (constructor_readable plan kind stats stages) by done. cbn [result this isValid].
    split; [done|]. split; [done|]. split; [|done]. intros _.
    rewrite bool_decide_eq_true_2; [done|]. eauto.
  - apply not_forallb_readable in Hall.
    destruct (constructor_unreadable plan kind stats stages) as (e & -> & _); try done.
    split; [done|]. split; [eauto|done].
Qed.

(** C5: a document without [kind], or whose [kind] does not start with
    ["bigquery"], or whose statistics block has no query plan, gives a plan
    with [isValid = false] and no node and no edge, and one warning is
    sent to the diagnostic sink; when the three validations pass,
    [isValid] is [true]. *)
Theorem validation_outcomes plan :
  let r := constructor plan in
  (Job.kind plan = None →
   isValid (this r) = false ∧ nodes (this r) = [] ∧ edges (this r) = []
   ∧ log r = [(Warn, "No plan document found in job.")]
   ∧ result r = Completed)
  ∧ (∀ kind,
       Job.kind plan = Some kind → startsWith kind "bigquery" = false →
       isValid (this r) = false ∧ nodes (this r) = [] ∧ edges (this r) = []
       ∧ log r = [(Warn, "Retrieved document is not of kind bigquery but of kind "
                         +:+ kind +:+ ".")]
       ∧ result r = Completed)
  ∧ (∀ stats,
       validKind plan = true → Job.statistics plan = Some stats →
       Job.query stats ≫= Job.queryPlan = None →
       isValid (this r) = false ∧ nodes (this r) = [] ∧ edges (this r) = []
       ∧ log r = [(Warn, "No query found in job " +:+ template (Job.id plan))]
       ∧ result r = Completed)
  ∧ (∀ stages,
       validKind plan = true → queryPlanOf plan = Some stages →
       isValid (this r) = true ∧ log r = []
       ∧ (Forall (λ node, readable node = true) stages → result r = Completed)).
Proof.
  cbv zeta. split; [|split; [|split]].
  - intros Hkind. by rewrite constructor_no_kind.
  - intros kind Hkind Hbq. by rewrite (constructor_wrong_kind _ kind).
  - intros stats Hvalid Hstats Hplan. by rewrite (constructor_no_queryPlan _ stats).
  - intros stages Hvalid Hplan.
    destruct (readable_split stages) as [Hall|(good & bad & rest & Heq & Hgood & Hbad)].
    + by rewrite (constructor_wellFormed plan stages).
    + assert (Exists (λ node, readable node = false) stages) as Hex.
      { rewrite Heq. apply Exists_app. right. by constructor. }
      unfold validKind in Hvalid.
      destruct (Job.kind plan) as [kind|] eqn:Hkind; [|done].
      destruct (Job.statistics plan) as [stats|] eqn:Hstats.
      2: { unfold queryPlanOf in Hplan. by rewrite Hstats in Hplan. }
      rewrite (queryPlanOf_statistics _ _ Hstats) in Hplan.
      destruct (constructor_unreadable plan kind stats stages) as (e & He & -> & ->);
        try done.
      split; [done|]. split; [done|]. intros Hall. exfalso.
      apply Exists_exists in Hex as (node & Hin & Hnode).
      rewrite Forall_forall in Hall. specialize (Hall _ Hin). congruence.
Qed.

(** *** Enrichment of one stage *)

Lemma lookup_setProp key v node key' :
  QueryStage.props (QueryStage.setProp key v node) !! key'
  = if decide (key = key') then Some v else QueryStage.props node !! key'.
Proof. unfold QueryStage.setProp. cbn [QueryStage.props]. apply lookup_insert. Qed.

(** C6: for a stage whose [startMs] and [endMs] are truthy (present, and
    neither the empty string nor the number 0) and numbers, in a job whose
    [startTime] and [endTime] are numbers, the enrichment
    stores the renderings of [end - start], of
    [100 * (start - jobStart) / (jobEnd - jobStart)] and of
    [100 * (end - jobStart) / (jobEnd - jobStart)]; for start = 1000,
    end = 3000, job start = 0 and job end = 10000 these numbers are 2000,
    10 and 30. *)
Theorem timing_fields_derived plan stats node :
  Job.statistics plan = Some stats →
  truthy (QueryStage.startMs node) = true →
  truthy (QueryStage.endMs node) = true →
  let startMs := Number (QueryStage.startMs node) in
  let endMs := Number (QueryStage.endMs node) in
  let jobStartMs := Number (Job.startTime stats) in
  let jobEndMs := Number (Job.endTime stats) in
  isNaN startMs = false → isNaN endMs = false →
  isNaN jobStartMs = false → isNaN jobEndMs = false →
  ∃ node',
    improveNodeInfo plan node = Normal node'
    ∧ QueryStage.props node' !! "durationMs  "
      = Some (Text (toLocaleString (endMs - startMs)%float))
    ∧ QueryStage.props node' !! "start %     "
      = Some (Text (toLocaleString
                      (100 * (startMs - jobStartMs) / (jobEndMs - jobStartMs))%float
                    +:+ "% of job duration"))
    ∧ QueryStage.props node' !! "end %       "
      = Some (Text (toLocaleString
                      (100 * (endMs - jobStartMs) / (jobEndMs - jobStartMs))%float
                    +:+ "% of job duration"))
    ∧ (startMs = 1000%float → endMs = 3000%float →
       jobStartMs = 0%float → jobEndMs = 10000%float →
       QueryStage.props node' !! "durationMs  " = Some (Text (toLocaleString 2000%float))
       ∧ QueryStage.props node' !! "start %     "
         = Some (Text (toLocaleString 10%float +:+ "% of job duration"))
       ∧ QueryStage.props node' !! "end %       "
         = Some (Text (toLocaleString 30%float +:+ "% of job duration"))).
Proof.
  intros Hstats Hs He startMs endMs jobStartMs jobEndMs Hns Hne Hnjs Hnje.
  eexists. unfold improveNodeInfo. rewrite Hs, He, Hstats. cbn [negb orb].
  fold startMs endMs jobStartMs jobEndMs. rewrite Hns, Hne, Hnjs, Hnje. cbn [orb].
  split; [reflexivity|].
  rewrite !lookup_setProp. cbn.
  split; [done|]. split; [done|]. split; [done|].
  by intros -> -> -> ->.
Qed.

(** C7: when one of the four timestamps (the stage's [startMs] and
    [endMs], the job's [startTime] and [endTime]) is missing or is not a
    number, the enrichment leaves the stage as it is and throws nothing;
    ghost nodes, which have no timestamps, are such stages. *)
Theorem enrichment_skipped plan stats node :
  Job.statistics plan = Some stats →
  let missingOrInvalid v := v = None ∨ isNaN (Number v) = true in
  missingOrInvalid (QueryStage.startMs node) ∨ missingOrInvalid (QueryStage.endMs node)
  ∨ missingOrInvalid (Job.startTime stats) ∨ missingOrInvalid (Job.endTime stats) →
  improveNodeInfo plan node = Normal node
  ∧ ∀ sourceNodeId, improveNodeInfo plan (ghostNode sourceNodeId) = Normal (ghostNode sourceNodeId).
Proof.
  intros Hstats missingOrInvalid Hor. split; [|done].
  assert (∀ v, missingOrInvalid v → isNaN (Number v) = true) as Hnan.
  { intros v [->|Hv]; [reflexivity|done]. }
  unfold improveNodeInfo. rewrite Hstats.
  destruct (negb (truthy (QueryStage.startMs node)) || negb (truthy (QueryStage.endMs node)));
    [done|].
  destruct Hor as [Hv|[Hv|[Hv|Hv]]]; rewrite (Hnan _ Hv), ?orb_true_r; done.
Qed.

(** *** The rows of the chart *)

Lemma isInternal_spec node :
  isInternal node = true ↔ QueryStage.isExternal node ≠ Some true.
Proof. unfold isInternal. by destruct (QueryStage.isExternal node) as [[]|]. Qed.

(** C8: the rows handed to the chart are, in the order of the nodes, one
    row [(id, name, new Date(Number(startMs)), new Date(Number(endMs)),
    null, 100, null)] for each node whose [isExternal] is absent or false;
    a node with [isExternal = true] has no row. *)
Theorem chart_rows p :
  Forall2
    (λ node row,
       row = {| taskId := QueryStage.id node; taskName := QueryStage.name node;
                startDate := Number (QueryStage.startMs node);
                endDate := Number (QueryStage.endMs node);
                duration := None; percentComplete := 100; dependencies := None |})
    (filter (λ node, QueryStage.isExternal node ≠ Some true) (nodes p))
    (ganttRows p)
  ∧ length (ganttRows p)
    + length (filter (λ node, QueryStage.isExternal node = Some true) (nodes p))
    = length (nodes p)
  ∧ ∀ containerName, asGoogleGantt containerName true p = ([], Some (ganttRows p)).
Proof.
  unfold ganttRows. split; [|split; [|done]].
  - induction (nodes p) as [|node l IH]; [constructor|].
    rewrite filter_cons. cbn [List.filter].
    destruct (isInternal node) eqn:Hnode.
    + rewrite decide_True by (by apply isInternal_spec). by constructor.
    + rewrite decide_False; [done|]. rewrite <- isInternal_spec. congruence.
  - rewrite length_fmap. induction (nodes p) as [|node l IH]; [done|].
    rewrite filter_cons. cbn [List.filter].
    destruct (isInternal node) eqn:Hnode.
    + rewrite decide_False by (by apply isInternal_spec). simpl. lia.
    + rewrite decide_True; [simpl; lia|].
      destruct (decide (QueryStage.isExternal node = Some true)) as [|Hn]; [done|].
      apply isInternal_spec in Hn. congruence.
Qed.

(** *** The frame of the enrichment *)

Lemma improveAll_frame plan nodes :
  length (improveAll plan nodes).1 = length nodes
  ∧ ids (improveAll plan nodes).1 = ids nodes.
Proof.
  induction nodes as [|node nodes [IHl IHi]]; [done|].
  cbn [improveAll]. destruct (improveNodeInfo plan node) as [node'|e] eqn:Hnode; [|done].
  cbn [fst length]. rewrite IHl. split; [done|].
  unfold ids in *. rewrite !fmap_cons, IHi. f_equal.
  pose proof (improved_id plan node) as Hid. unfold improved in Hid. by rewrite Hnode in Hid.
Qed.

(** C10: the enrichment of a stage changes none of its declared fields
    and none of its other properties, except that it sets the nine display
    keys; no property is removed.  The loop over the nodes keeps their
    number and their identifiers, and the edges of the plan are those that
    the first loop made. *)
Theorem enrichment_frame plan :
  (∀ node node',
     improveNodeInfo plan node = Normal node' →
     declaredFields node' = declaredFields node
     ∧ (∀ key, key ∉ displayKeys →
               QueryStage.props node' !! key = QueryStage.props node !! key)
     ∧ (∀ key, is_Some (QueryStage.props node !! key) →
               is_Some (QueryStage.props node' !! key)))
  ∧ (∀ nodes,
       length (improveAll plan nodes).1 = length nodes
       ∧ ids (improveAll plan nodes).1 = ids nodes)
  ∧ (∀ stages nodes1 edges1,
       validKind plan = true → queryPlanOf plan = Some stages →
       addGhostNodesAndEdges (loopBound stages) 0 (stages, [])
       = ((nodes1, edges1), Completed) →
       nodes (this (constructor plan)) = (improveAll plan nodes1).1
       ∧ edges (this (constructor plan)) = edges1).
Proof.
  split; [|split].
  - intros node node' Hnode.
    pose proof (improved_declaredFields plan node) as Hf.
    pose proof (improved_props plan node) as Hp.
    unfold improved in Hf, Hp. rewrite Hnode in Hf, Hp.
    split; [done|]. split; [done|].
    intros key Hkey. destruct (decide (key ∈ displayKeys)) as [Hin|Hout].
    2: { by rewrite Hp. }
    unfold improveNodeInfo in Hnode.
    repeat case_match; simplify_eq; try done.
    rewrite !lookup_setProp. by repeat case_decide.
  - apply improveAll_frame.
  - intros stages nodes1 edges1 Hvalid Hplan Hloop.
    unfold validKind in Hvalid. unfold constructor.
    destruct (Job.kind plan) as [kind|]; [|done]. rewrite Hvalid. cbn [negb].
    destruct (Job.statistics plan) as [stats|] eqn:Hstats.
    2: { unfold queryPlanOf in Hplan. by rewrite Hstats in Hplan. }
    rewrite (queryPlanOf_statistics _ _ Hstats) in Hplan.
    rewrite Hplan, Hloop. done.
Qed.

(** *** The order of the numbers, [Math.max] and [indexOf] *)

Lemma SFcompare_key s1 s2 :
  s1 ≠ S754_nan → s2 ≠ S754_nan →
  ∃ c, SFcompare s1 s2 = Some c
       ∧ (c = Lt ↔ keyLt (orderKey s1) (orderKey s2))
       ∧ (c = Gt ↔ keyLt (orderKey s2) (orderKey s1)).
Proof.
  intros H1 H2. unfold keyLt.
  destruct s1 as [[]|[]| |[] m1 e1], s2 as [[]|[]| |[] m2 e2]; try done;
    cbn [SFcompare orderKey fst snd]; try (eexists; split; [reflexivity|]; split; split; (done || lia)).
  - eexists; split; [reflexivity|].
    replace (Pos.compare_cont Eq m1 m2) with (Pos.compare m1 m2) by done.
    destruct (Z.compare_spec e1 e2), (Pos.compare_spec m1 m2); cbn [CompOpp]; split; split; (done || lia).
  - eexists; split; [reflexivity|].
    replace (Pos.compare_cont Eq m1 m2) with (Pos.compare m1 m2) by done.
    destruct (Z.compare_spec e1 e2), (Pos.compare_spec m1 m2); split; split; (done || lia).
Qed.

Lemma Prim2SF_not_nan x : PrimFloat.is_nan x = false → Prim2SF x ≠ S754_nan.
Proof.
  intros Hx. unfold Prim2SF. rewrite Hx.
  repeat case_match; done.
Qed.

Lemma ltb_key x y :
  PrimFloat.is_nan x = false → PrimFloat.is_nan y = false →
  PrimFloat.ltb x y = true ↔ keyLt (orderKey (Prim2SF x)) (orderKey (Prim2SF y)).
Proof.
  intros Hx%Prim2SF_not_nan Hy%Prim2SF_not_nan. rewrite ltb_spec. unfold SFltb.
  destruct (SFcompare_key _ _ Hx Hy) as (c & -> & Hlt & Hgt).
  rewrite <- Hlt. by destruct c.
Qed.

Lemma leb_key x y :
  PrimFloat.is_nan x = false → PrimFloat.is_nan y = false →
  PrimFloat.leb x y = true ↔ keyLe (orderKey (Prim2SF x)) (orderKey (Prim2SF y)).
Proof.
  intros Hx%Prim2SF_not_nan Hy%Prim2SF_not_nan. rewrite leb_spec. unfold SFleb.
  destruct (SFcompare_key _ _ Hx Hy) as (c & -> & Hlt & Hgt).
  unfold keyLe, keyLt in *. destruct c; split; try done; intros; try lia.
  - assert (Eq ≠ Gt) as Hn by done. rewrite Hgt in Hn. lia.
  - assert (Lt = Lt) as Hn by done. rewrite Hlt in Hn. lia.
  - exfalso. assert (Gt = Gt) as Hn by done. rewrite Hgt in Hn. lia.
Qed.

Lemma eqb_key x y :
  PrimFloat.is_nan x = false → PrimFloat.is_nan y = false →
  PrimFloat.eqb x y = true
  ↔ keyLe (orderKey (Prim2SF x)) (orderKey (Prim2SF y))
    ∧ keyLe (orderKey (Prim2SF y)) (orderKey (Prim2SF x)).
Proof.
  intros Hx%Prim2SF_not_nan Hy%Prim2SF_not_nan. rewrite FloatAxioms.eqb_spec. unfold SFeqb.
  destruct (SFcompare_key _ _ Hx Hy) as (c & -> & Hlt & Hgt).
  unfold keyLe, keyLt in *. destruct c; split; try done; intros; try lia.
  - assert (Eq ≠ Gt) as Hn by done. rewrite Hgt in Hn.
    assert (Eq ≠ Lt) as Hm by done. rewrite Hlt in Hm. lia.
  - exfalso. assert (Lt = Lt) as Hn by done. rewrite Hlt in Hn. lia.
  - exfalso. assert (Gt = Gt) as Hn by done. rewrite Hgt in Hn. lia.
Qed.

Lemma eqb_nan_r x : PrimFloat.eqb x PrimFloat.nan = false.
Proof.
  rewrite FloatAxioms.eqb_spec. change (Prim2SF PrimFloat.nan) with S754_nan.
  unfold SFeqb. by destruct (Prim2SF x) as [| | |[]].
Qed.

Lemma is_nan_neg_infinity : PrimFloat.is_nan PrimFloat.neg_infinity = false.
Proof. reflexivity. Qed.

Lemma zero_keys hi x :
  isNegativeZero hi = true → isPositiveZero x = true →
  orderKey (Prim2SF hi) = orderKey (Prim2SF x).
Proof.
  unfold isNegativeZero, isPositiveZero. rewrite !classify_spec.
  unfold SF64classify, SFclassify.
  destruct (Prim2SF hi) as [[]|[]| |[] ? ?], (Prim2SF x) as [[]|[]| |[] ? ?];
    repeat case_match; done.
Qed.

Lemma neg_infinity_least x :
  PrimFloat.is_nan x = false → PrimFloat.leb PrimFloat.neg_infinity x = true.
Proof.
  intros Hx. rewrite leb_key by done.
  change (Prim2SF PrimFloat.neg_infinity) with (S754_infinity true).
  unfold keyLe. destruct (Prim2SF x) as [[]|[]| |[] ? ?]; cbn [orderKey fst snd]; lia.
Qed.

(** One step of [Math.max] on numbers: the new highest value is one of the
    two, and both are below it. *)
Lemma max_step hi x :
  PrimFloat.is_nan hi = false → PrimFloat.is_nan x = false →
  let hi' := if (isPositiveZero x && isNegativeZero hi) || PrimFloat.ltb hi x
             then x else hi in
  (hi' = hi ∨ hi' = x) ∧ PrimFloat.leb hi hi' = true ∧ PrimFloat.leb x hi' = true.
Proof.
  intros Hhi Hx. cbv zeta.
  destruct (isPositiveZero x && isNegativeZero hi) eqn:Hz; cbn [orb].
  - apply andb_prop in Hz as [Hp Hn]. pose proof (zero_keys _ _ Hn Hp) as Hk.
    split; [by right|]. rewrite !leb_key by done. rewrite Hk. unfold keyLe. lia.
  - destruct (PrimFloat.ltb hi x) eqn:Hlt.
    + apply ltb_key in Hlt; [|done..]. split; [by right|].
      rewrite !leb_key by done. unfold keyLe, keyLt in *. lia.
    + split; [by left|]. rewrite !leb_key by done.
      assert (¬ keyLt (orderKey (Prim2SF hi)) (orderKey (Prim2SF x))) as Hn.
      { rewrite <- ltb_key by done. congruence. }
      unfold keyLe, keyLt in *. lia.
Qed.

Lemma leb_trans x y z :
  PrimFloat.is_nan x = false → PrimFloat.is_nan y = false → PrimFloat.is_nan z = false →
  PrimFloat.leb x y = true → PrimFloat.leb y z = true → PrimFloat.leb x z = true.
Proof.
  intros Hx Hy Hz. rewrite !leb_key by done. unfold keyLe. lia.
Qed.

Lemma foldl_max l : ∀ hi,
  PrimFloat.is_nan hi = false → existsb isNaN l = false →
  let m := foldl (λ highest number,
                    if (isPositiveZero number && isNegativeZero highest)
                       || PrimFloat.ltb highest number
                    then number else highest) hi l in
  (m = hi ∨ m ∈ l) ∧ PrimFloat.is_nan m = false
  ∧ PrimFloat.leb hi m = true ∧ ∀ y, y ∈ l → PrimFloat.leb y m = true.
Proof.
  induction l as [|x l IH]; intros hi Hhi Hl; cbv zeta.
  - cbn [foldl]. split; [by left|]. split; [done|]. split.
    + rewrite leb_key by done. unfold keyLe. lia.
    + by intros y ?%elem_of_nil.
  - cbn [existsb] in Hl. apply orb_false_elim in Hl as [Hx Hl]. unfold isNaN in Hx.
    cbn [foldl]. destruct (max_step hi x Hhi Hx) as (Hor & Hle1 & Hle2).
    set (hi' := if (isPositiveZero x && isNegativeZero hi) || PrimFloat.ltb hi x
                then x else hi) in *.
    assert (PrimFloat.is_nan hi' = false) as Hhi' by (by destruct Hor as [-> | ->]).
    destruct (IH hi' Hhi' Hl) as (Hm & Hnm & Hle & Hall).
    set (m := foldl _ hi' l) in *.
    assert (∀ y, y ∈ x :: l → PrimFloat.is_nan y = false) as Hnan.
    { intros y [->|Hy]%elem_of_cons; [done|].
      destruct (PrimFloat.is_nan y) eqn:Hyn; [|done].
      assert (existsb isNaN l = true); [|congruence].
      apply existsb_exists. exists y. split; [by apply list_elem_of_In|done]. }
    split; [|split; [done|split]].
    + destruct Hm as [->|Hm]; [|right; by right].
      destruct Hor as [->| ->]; [by left|right; by left].
    + by apply (leb_trans hi hi' m).
    + intros y [->|Hy]%elem_of_cons; [by apply (leb_trans _ hi' m)|by apply Hall].
Qed.

(** [Math.max] of numbers, none of which is NaN: a value of the list (up
    to the IEEE equality, which does not tell the two zeros apart) that no
    other value exceeds. *)
Lemma Math_max_spec l :
  l ≠ [] → existsb isNaN l = false →
  PrimFloat.is_nan (Math_max l) = false
  ∧ (∃ y, y ∈ l ∧ PrimFloat.eqb y (Math_max l) = true)
  ∧ ∀ y, y ∈ l → PrimFloat.leb y (Math_max l) = true.
Proof.
  intros Hne Hl. unfold Math_max. rewrite Hl.
  destruct (foldl_max l PrimFloat.neg_infinity is_nan_neg_infinity Hl)
    as (Hm & Hnm & Hle & Hall).
  set (m := foldl _ _ l) in *. split; [done|]. split; [|done].
  destruct Hm as [Hm|Hm].
  - destruct l as [|x l]; [done|]. exists x. split; [by left|].
    assert (PrimFloat.is_nan x = false) as Hx.
    { cbn [existsb] in Hl. by apply orb_false_elim in Hl as [Hx _]. }
    apply eqb_key; [done..|]. split.
    + apply leb_key; [done..|]. apply Hall. by left.
    + apply leb_key; [done..|]. rewrite Hm. by apply neg_infinity_least.
  - exists m. split; [done|]. unfold PrimFloat.is_nan in Hnm.
    by destruct (PrimFloat.eqb m m).
Qed.

Lemma indexOfFrom_found l : ∀ k x,
  (∃ y, y ∈ l ∧ PrimFloat.eqb y x = true) →
  ∃ i y, indexOfFrom k l x = (k + Z.of_nat i)%Z
         ∧ l !! i = Some y ∧ PrimFloat.eqb y x = true
         ∧ ∀ j y', j < i → l !! j = Some y' → PrimFloat.eqb y' x = false.
Proof.
  induction l as [|z l IH]; intros k x (y & Hy & Heq).
  { by apply elem_of_nil in Hy. }
  cbn [indexOfFrom]. destruct (PrimFloat.eqb z x) eqn:Hz.
  - exists 0, z. rewrite Z.add_0_r. split; [done|]. split; [done|]. split; [done|].
    intros j y' Hj. lia.
  - apply elem_of_cons in Hy as [->|Hy]; [congruence|].
    destruct (IH (k + 1)%Z x) as (i & y0 & Hi & Hl & He & Hfirst); [eauto|].
    exists (S i), y0. split; [lia|]. split; [done|]. split; [done|].
    intros [|j] y' Hj Hl'; [by injection Hl' as <-|].
    apply (Hfirst j); [lia|done].
Qed.

Lemma indexOfFrom_absent l : ∀ k x,
  (∀ y, y ∈ l → PrimFloat.eqb y x = false) → indexOfFrom k l x = (-1)%Z.
Proof.
  induction l as [|z l IH]; intros k x Hall; [done|].
  cbn [indexOfFrom]. rewrite (Hall z) by by left.
  apply IH. intros y Hy. apply Hall. by right.
Qed.

Lemma at_index_nat {A} (l : list A) (i : nat) : at_index l (Z.of_nat i) = l !! i.
Proof.
  unfold at_index. rewrite Nat2Z.id.
  by destruct (Z.ltb_spec (Z.of_nat i) 0); [lia|].
Qed.

(** C9: for a stage whose average wait is present and not zero and whose
    wait, read and compute averages are numbers, the colour is the entry
    of the palette at the first position of the list
    [wait, read, compute, wait] (the write average is not in it) whose
    number is the maximum of the list, a number of the list that no other
    exceeds; a stage without wait data gets ['#2290FF'].  When one of the
    three averages is missing or not a number the maximum is NaN, no
    position holds it and the function returns [undefined]. *)
Theorem color_for_max_time node :
  let timeList :=
    [Number (QueryStage.waitMsAvg node); Number (QueryStage.readMsAvg node);
     Number (QueryStage.computeMsAvg node); Number (QueryStage.waitMsAvg node)] in
  let maxTime := Math_max timeList in
  (truthy (QueryStage.waitMsAvg node) = false → colorForMaxTime node = Some "#2290FF")
  ∧ (truthy (QueryStage.waitMsAvg node) = true →
     colorForMaxTime node = at_index palette (indexOf timeList maxTime)
     ∧ (existsb isNaN timeList = false →
        ∃ i color y,
          colorForMaxTime node = Some color
          ∧ palette !! i = Some color
          ∧ timeList !! i = Some y ∧ PrimFloat.eqb y maxTime = true
          ∧ (∀ j y', j < i → timeList !! j = Some y' → PrimFloat.eqb y' maxTime = false)
          ∧ (∀ y', y' ∈ timeList → PrimFloat.leb y' maxTime = true))
     ∧ (existsb isNaN timeList = true → colorForMaxTime node = None))
  ∧ (∀ node',
       QueryStage.waitMsAvg node' = QueryStage.waitMsAvg node →
       QueryStage.readMsAvg node' = QueryStage.readMsAvg node →
       QueryStage.computeMsAvg node' = QueryStage.computeMsAvg node →
       colorForMaxTime node' = colorForMaxTime node).
Proof.
  cbv zeta. split; [|split].
  - intros Hw. unfold colorForMaxTime. by rewrite Hw.
  - intros Hw. unfold colorForMaxTime. rewrite Hw.
    set (timeList := [Number (QueryStage.waitMsAvg node); Number (QueryStage.readMsAvg node);
                      Number (QueryStage.computeMsAvg node);
                      Number (QueryStage.waitMsAvg node)]).
    split; [done|]. split.
    + intros Hnan.
      destruct (Math_max_spec timeList) as (_ & Hattained & Hmax); [done|done|].
      destruct (indexOfFrom_found timeList 0 (Math_max timeList) Hattained)
        as (i & y & Hi & Hl & He & Hfirst).
      unfold indexOf. rewrite Hi, Z.add_0_l, at_index_nat.
      assert (i < length palette) as Hlt by (by apply lookup_lt_Some in Hl).
      destruct (lookup_lt_is_Some_2 palette i Hlt) as [color Hcolor].
      exists i, color, y. by rewrite Hcolor.
    + intros Hnan. unfold Math_max. rewrite Hnan.
      unfold indexOf. rewrite indexOfFrom_absent; [done|].
      intros y _. apply eqb_nan_r.
  - intros node' Hw Hr Hc. unfold colorForMaxTime. by rewrite Hw, Hr, Hc.
Qed.

(** *** More on the constructed plan *)

Lemma ids_improved plan nodes : ids (improved plan <$> nodes) = ids nodes.
Proof.
  unfold ids. rewrite <- list_fmap_compose. apply list_fmap_ext.
  intros i node _. apply improved_id.
Qed.

Lemma ids_constructed stages plan :
  ids ((improved plan <$> stages)
       ++ (ghostNode <$> newSources (ids stages) (allReads stages)))
  = ids stages ++ newSources (ids stages) (allReads stages).
Proof. by rewrite ids_app, ids_improved, ids_ghosts. Qed.

(** X1: the constructor keeps the identifiers of the nodes distinct: when no
    two stages of the query plan have the same id, no two nodes of the
    plan have. *)
Theorem node_ids_stay_distinct plan stages :
  validKind plan = true →
  queryPlanOf plan = Some stages →
  Forall (λ node, readable node = true) stages →
  NoDup (ids stages) →
  NoDup (ids (nodes (this (constructor plan)))).
Proof.
  intros Hkind Hplan Hall Hnodup.
  rewrite (constructor_wellFormed plan stages Hkind Hplan Hall). cbn [this nodes].
  rewrite ids_constructed. apply NoDup_app. split; [done|]. split.
  - intros id Hid [_ Hnew]%elem_of_newSources. done.
  - apply NoDup_newSources.
Qed.

Lemma getNode_ghosts ns id j x :
  getNode (ghostNode <$> ns) id = Some (j, x) → x = ghostNode id ∧ ns !! j = Some id.
Proof.
  intros [Hj Hid]%getNode_Some. rewrite list_lookup_fmap in Hj.
  destruct (ns !! j) as [r|] eqn:Hr; [|done]. injection Hj as <-.
  cbn in Hid. by subst.
Qed.

(** X2: node lookup in a constructed plan: an identifier is found exactly if
    it is the id of a stage or is read by a stage; the node found has that
    id, and it is the stage (the first with that id, enriched) when there
    is one, and otherwise the ghost node made for the identifier. *)
Theorem getNode_of_constructed plan stages :
  validKind plan = true →
  queryPlanOf plan = Some stages →
  Forall (λ node, readable node = true) stages →
  let p := this (constructor plan) in
  (∀ id, is_Some (getNode (nodes p) id) ↔ id ∈ ids stages ∨ id ∈ allReads stages)
  ∧ (∀ id j x,
       getNode (nodes p) id = Some (j, x) →
       nodes p !! j = Some x ∧ QueryStage.id x = id
       ∧ (id ∈ ids stages →
          ∃ stage, getNode stages id = Some (j, stage) ∧ x = improved plan stage)
       ∧ (id ∉ ids stages → length stages ≤ j ∧ x = ghostNode id)).
Proof.
  intros Hkind Hplan Hall p. unfold p.
  rewrite (constructor_wellFormed plan stages Hkind Hplan Hall). cbn [this nodes].
  set (ns := newSources (ids stages) (allReads stages)). split.
  - intros id. split.
    + intros [[j x] Hg]. apply getNode_elem_of in Hg.
      unfold ns in Hg. rewrite ids_constructed, elem_of_app, elem_of_newSources in Hg.
      tauto.
    + intros Hor. apply getNode_is_Some. unfold ns.
      rewrite ids_constructed, elem_of_app, elem_of_newSources.
      destruct (decide (id ∈ ids stages)); tauto.
  - intros id j x Hg. destruct (getNode_Some _ _ _ _ Hg) as [Hj Hid].
    split; [done|]. split; [done|].
    unfold getNode in Hg. apply list_find_app_Some in Hg as [Hg|(Hlen & Hnone & Hg)].
    + assert (id ∈ ids stages) as Hin.
      { rewrite <- (ids_improved plan). by eapply getNode_elem_of. }
      split; [|done]. intros _.
      rewrite list_find_fmap in Hg.
      destruct (list_find (λ x0, QueryStage.id x0 = id) stages) as [[j' stage]|] eqn:Hs.
      * erewrite (list_find_ext _ (λ x0, QueryStage.id x0 = id)) in Hg.
        2: { intros y. simpl. by rewrite improved_id. }
        rewrite Hs in Hg. cbn in Hg. injection Hg as <- <-. eauto.
      * erewrite (list_find_ext _ (λ x0, QueryStage.id x0 = id)) in Hg.
        2: { intros y. simpl. by rewrite improved_id. }
        by rewrite Hs in Hg.
    + rewrite length_fmap in Hlen, Hg.
      assert (id ∉ ids stages) as Hout.
      { rewrite <- (ids_improved plan). by apply getNode_None. }
      split; [done|]. intros _. split; [done|].
      by apply getNode_ghosts in Hg as [-> _].
Qed.

Lemma nodes_constructed plan stages :
  (improved plan <$> stages) ++ (ghostNode <$> newSources (ids stages) (allReads stages))
  = improved plan <$> grownPlan stages.
Proof.
  unfold grownPlan. rewrite fmap_app. f_equal.
  rewrite <- list_fmap_compose. apply list_fmap_ext. intros i s _.
  symmetry. apply improved_ghost.
Qed.

Lemma edgesFrom_referencePairs plan final i todo :
  (∀ r, r ∈ allReads todo → is_Some (getNode final r)) →
  Forall2
    (λ e kr, Edge.to e = kr.1
             ∧ ∃ j src, Edge.from e = Some j
                        ∧ (improved plan <$> final) !! j = Some src
                        ∧ QueryStage.id src = kr.2)
    (edgesFrom final i todo) (referencePairs i todo).
Proof.
  revert i. induction todo as [|node todo IH]; intros i Hres; [constructor|].
  cbn [edgesFrom referencePairs]. apply Forall2_app.
  - apply Forall2_fmap, Forall_Forall2_diag, Forall_forall. intros r Hr.
    split; [done|]. cbn [edgeFor Edge.from snd].
    destruct (Hres r) as [[j src] Hg].
    { apply elem_of_allReads. exists node. split; [by left|done]. }
    destruct (getNode_Some _ _ _ _ Hg) as [Hj Hid].
    exists j, (improved plan src). rewrite Hg, list_lookup_fmap, Hj, improved_id. done.
  - apply IH. intros r Hr. apply Hres.
    apply elem_of_allReads in Hr as (node' & Hin & Hr).
    apply elem_of_allReads. exists node'. split; [by right|done].
Qed.

Lemma to_edgesFrom final i todo :
  StronglySorted le (Edge.to <$> edgesFrom final i todo)
  ∧ Forall (λ k, i ≤ k < i + length todo) (Edge.to <$> edgesFrom final i todo).
Proof.
  revert i. induction todo as [|node todo IH]; intros i; cbn [edgesFrom].
  { split; constructor. }
  destruct (IH (S i)) as [Hsorted Hbound]. rewrite fmap_app.
  assert (Forall (λ k, k = i) (Edge.to <$> (edgeFor final i node <$> reads node))) as Hhere.
  { rewrite <- list_fmap_compose. by apply Forall_fmap, Forall_true. }
  split.
  - apply StronglySorted_app_2; [| |done].
    + intros k1 k2 Hk1 Hk2. rewrite Forall_forall in Hhere, Hbound.
      rewrite (Hhere _ Hk1). specialize (Hbound _ Hk2). lia.
    + clear -Hhere. induction Hhere as [|k l Hk Hl IHl]; constructor; [done|].
      subst k. eapply Forall_impl; [exact Hl|]. intros ? ->. done.
  - apply Forall_app. split.
    + eapply Forall_impl; [exact Hhere|]. intros ? ->. cbn [length]. clear. lia.
    + eapply Forall_impl; [exact Hbound|]. intros k Hk. cbn [length].
      cbv beta in Hk. clear -Hk. lia.
Qed.

(** X3: the edges of a constructed plan stand in the order in which the
    constructor meets the references: stage by stage, and for one stage in
    the order of [getReads].  Each edge leads to the stage that reads, from
    a node with the identifier read; so the targets never decrease along
    the list of edges. *)
Theorem edges_in_traversal_order plan stages :
  validKind plan = true →
  queryPlanOf plan = Some stages →
  Forall (λ node, readable node = true) stages →
  let p := this (constructor plan) in
  Forall2
    (λ e kr, Edge.to e = kr.1
             ∧ ∃ j src, Edge.from e = Some j ∧ nodes p !! j = Some src
                        ∧ QueryStage.id src = kr.2)
    (edges p) (referencePairs 0 stages)
  ∧ StronglySorted le (Edge.to <$> edges p).
Proof.
  intros Hkind Hplan Hall p. unfold p.
  rewrite (constructor_wellFormed plan stages Hkind Hplan Hall). cbn [this nodes edges].
  rewrite nodes_constructed. split.
  - apply edgesFrom_referencePairs. apply grownPlan_resolves.
  - apply to_edgesFrom.
Qed.

Lemma edgeFor_elem_of final todo : ∀ i k node r,
  todo !! k = Some node → r ∈ reads node →
  edgeFor final (i + k) node r ∈ edgesFrom final i todo.
Proof.
  induction todo as [|node' todo IH]; intros i k node r Hk Hr; [done|].
  cbn [edgesFrom]. apply elem_of_app. destruct k as [|k].
  - injection Hk as ->. left. rewrite Nat.add_0_r.
    apply list_elem_of_fmap. eauto.
  - right. rewrite Nat.add_succ_r. by apply (IH (S i) k).
Qed.

(** X4: a ghost node of a constructed plan (a node after the stages) is the
    target of no edge and the source of at least one. *)
Theorem ghost_nodes_are_pure_sources plan stages j ghost :
  validKind plan = true →
  queryPlanOf plan = Some stages →
  Forall (λ node, readable node = true) stages →
  let p := this (constructor plan) in
  length stages ≤ j →
  nodes p !! j = Some ghost →
  (∀ e, e ∈ edges p → Edge.to e ≠ j)
  ∧ ∃ e, e ∈ edges p ∧ Edge.from e = Some j.
Proof.
  intros Hkind Hplan Hall p Hj Hghost. unfold p in *.
  rewrite (constructor_wellFormed plan stages Hkind Hplan Hall) in *.
  cbn [this nodes edges] in *. split.
  - intros e (k & node & r & Hk & _ & ->)%elem_of_edgesFrom. cbn [edgeFor Edge.to].
    apply lookup_lt_Some in Hk. lia.
  - set (ns := newSources (ids stages) (allReads stages)) in *.
    rewrite lookup_app_r in Hghost by (by rewrite length_fmap).
    rewrite length_fmap, list_lookup_fmap in Hghost.
    destruct (ns !! (j - length stages)) as [r|] eqn:Hr; [|done].
    assert (r ∈ ns) as Hin by (by eapply list_elem_of_lookup_2).
    apply elem_of_newSources in Hin as [Hread Hnew].
    apply elem_of_allReads in Hread as (stage & Hstage & Hread).
    apply list_elem_of_lookup_1 in Hstage as [k Hk].
    exists (edgeFor (grownPlan stages) (0 + k) stage r). split.
    { by apply edgeFor_elem_of. }
    cbn [edgeFor Edge.from].
    destruct (grownPlan_resolves stages r) as [[j' x] Hg].
    { apply elem_of_allReads. exists stage. split; [|done]. by eapply list_elem_of_lookup_2. }
    rewrite Hg. cbn. f_equal.
    unfold getNode, grownPlan in Hg.
    apply list_find_app_Some in Hg as [Hg|(Hlen & _ & Hg)].
    { exfalso. apply Hnew. by eapply getNode_elem_of. }
    apply getNode_ghosts in Hg as [_ Hg]. fold ns in Hg.
    pose proof (NoDup_lookup _ _ _ _ (NoDup_newSources _ _) Hr Hg). lia.
Qed.

(** *** Enrichment, formatting and the views *)

Lemma setProp_declaredFields key v node :
  declaredFields (QueryStage.setProp key v node) = declaredFields node.
Proof. done. Qed.

Lemma stage_eq (n1 n2 : QueryStage.t) :
  declaredFields n1 = declaredFields n2 →
  QueryStage.props n1 = QueryStage.props n2 →
  n1 = n2.
Proof. destruct n1, n2. cbn. intros [= -> -> -> -> -> -> -> -> -> -> -> -> -> -> ->] ->. done. Qed.

(** X5: enrichment is idempotent: running [improveNodeInfo] on a stage that
    it has enriched changes nothing. *)
Theorem improveNodeInfo_idempotent plan node node' :
  improveNodeInfo plan node = Normal node' →
  improveNodeInfo plan node' = Normal node'.
Proof.
  intros Hnode.
  pose proof (improved_declaredFields plan node) as Hf.
  unfold improved in Hf. rewrite Hnode in Hf.
  injection Hf as Hid Hname Hsteps Hinputs Hstart Hend Hwa Hwm Hra Hrm Hca Hcm Hwra Hwrm Hext.
  unfold improveNodeInfo in *.
  rewrite Hstart, Hend, Hwa, Hwm, Hra, Hrm, Hca, Hcm, Hwra, Hwrm.
  destruct (negb (truthy (QueryStage.startMs node)) || negb (truthy (QueryStage.endMs node)));
    [done|].
  destruct (Job.statistics plan) as [stats|]; [|done].
  destruct (isNaN _ || isNaN _ || isNaN _ || isNaN _); [done|].
  injection Hnode as <-. f_equal. apply stage_eq.
  { by rewrite !setProp_declaredFields. }
  cbn [QueryStage.setProp QueryStage.props].
  apply map_eq. intros key.
  repeat lazymatch goal with
  | |- <[?k:=_]> _ !! key = _ =>
      destruct (decide (k = key)) as [<-|];
      [by rewrite !lookup_insert_eq|rewrite !(lookup_insert_ne _ k) by done]
  end.
  done.
Qed.

Lemma indexOf_timeList w r c x :
  indexOf [w; r; c; w] x ≠ 3%Z.
Proof.
  unfold indexOf. cbn [indexOfFrom].
  destruct (PrimFloat.eqb w x); [done|].
  destruct (PrimFloat.eqb r x); [done|].
  destruct (PrimFloat.eqb c x); done.
Qed.

(** X6: the last colour of the palette is never returned: the list of times
    ends with the wait average, which is also its first entry, so the first
    position of the maximum is never the last one.  The colour is one of
    the first three of the palette, the default, or [undefined]. *)
Theorem colorForMaxTime_range node :
  colorForMaxTime node ≠ Some "#1565c0"
  ∧ colorForMaxTime node ∈ [Some "#fbc02d"; Some "#7b1fa2"; Some "#ef6c00";
                             Some "#2290FF"; None].
Proof.
  unfold colorForMaxTime. destruct (truthy (QueryStage.waitMsAvg node)).
  2: { split; [done|]. do 3 apply list_elem_of_further. apply list_elem_of_here. }
  unfold indexOf. cbn [indexOfFrom].
  destruct (PrimFloat.eqb (Number (QueryStage.waitMsAvg node)) _).
  { split; [done|]. apply list_elem_of_here. }
  destruct (PrimFloat.eqb (Number (QueryStage.readMsAvg node)) _).
  { split; [done|]. apply list_elem_of_further, list_elem_of_here. }
  destruct (PrimFloat.eqb (Number (QueryStage.computeMsAvg node)) _).
  { split; [done|]. do 2 apply list_elem_of_further. apply list_elem_of_here. }
  split; [done|]. do 4 apply list_elem_of_further. apply list_elem_of_here.
Qed.

Lemma ganttRow_improved plan node : ganttRow (improved plan node) = ganttRow node.
Proof.
  pose proof (improved_declaredFields plan node) as Hf.
  injection Hf as Hid Hname _ _ Hstart Hend _ _ _ _ _ _ _ _ _.
  unfold ganttRow. by rewrite Hid, Hname, Hstart, Hend.
Qed.

Lemma isInternal_improved plan node : isInternal (improved plan node) = isInternal node.
Proof.
  pose proof (improved_declaredFields plan node) as Hf.
  injection Hf as _ _ _ _ _ _ _ _ _ _ _ _ _ _ Hext.
  unfold isInternal. by rewrite Hext.
Qed.

Lemma filter_isInternal_improved plan stages :
  List.filter isInternal (improved plan <$> stages)
  = improved plan <$> List.filter isInternal stages.
Proof.
  induction stages as [|node stages IH]; [done|].
  rewrite fmap_cons. cbn [List.filter]. rewrite isInternal_improved.
  destruct (isInternal node); [|done]. by rewrite fmap_cons, IH.
Qed.

Lemma filter_isInternal_ghosts ns : List.filter isInternal (ghostNode <$> ns) = [].
Proof. induction ns as [|r ns IH]; [done|]. rewrite fmap_cons. cbn. exact IH. Qed.

(** X7: the chart of a constructed plan has one row for each stage of the
    query plan that is not marked external, in the order of the stages and
    with the data of the document (the enrichment changes no row), and no
    row for a ghost node; its height is 20 for each row. *)
Theorem chart_of_constructed plan stages :
  validKind plan = true →
  queryPlanOf plan = Some stages →
  Forall (λ node, readable node = true) stages →
  let p := this (constructor plan) in
  ganttRows p = ganttRow <$> List.filter isInternal stages
  ∧ ganttHeight p = length (List.filter isInternal stages) * 20
  ∧ (Forall (λ node, QueryStage.isExternal node = None) stages →
     taskId <$> ganttRows p = ids stages).
Proof.
  intros Hkind Hplan Hall p. unfold p, ganttRows, ganttHeight.
  rewrite (constructor_wellFormed plan stages Hkind Hplan Hall). cbn [this nodes].
  rewrite List.filter_app, filter_isInternal_ghosts, app_nil_r, filter_isInternal_improved.
  split; [|split].
  - rewrite <- list_fmap_compose. apply list_fmap_ext. intros i node _.
    apply ganttRow_improved.
  - by rewrite length_fmap.
  - intros Hext. replace (List.filter isInternal stages) with stages.
    { rewrite <- !list_fmap_compose. apply list_fmap_ext. intros i node _.
      cbn. apply improved_id. }
    clear -Hext. induction Hext as [|node l Hnode _ IH]; [done|].
    cbn [List.filter]. unfold isInternal at 1. rewrite Hnode. by rewrite <- IH.
Qed.

Lemma readSource_error step :
  hasFrom step = false →
  readSource step = Throw (TypeError "Cannot read property 'split' of undefined").
Proof. intros Hf%find_not_hasFrom. unfold readSource. by rewrite Hf. Qed.

Lemma mapThrowing_readSource_error steps :
  forallb hasFrom steps = false →
  mapThrowing readSource steps
  = Throw (TypeError "Cannot read property 'split' of undefined").
Proof.
  induction steps as [|step steps IH]; simpl; [done|].
  destruct (hasFrom step) eqn:Hstep; simpl.
  - intros ->%IH. by destruct (readSource_hasFrom _ Hstep) as (item & _ & ->).
  - intros _. by rewrite readSource_error.
Qed.

(** X8: [getReads] throws exactly when a READ step of the stage has no
    substep that starts with ["FROM "], and then with the error of calling
    [split] on [undefined]: the second item of a substep that starts with
    ["FROM "] always exists.  Otherwise it returns the read references,
    none of which is empty or starts with two underscores, followed by the
    input stages; for an object without steps it returns nothing. *)
Theorem getReads_completion node :
  (readable node = true →
   getReads node = Normal (readReferences node ++ inputReferences node))
  ∧ (readable node = false →
     getReads node = Throw (TypeError "Cannot read property 'split' of undefined"))
  ∧ Forall (λ id, id ≠ "" ∧ startsWith id "__" = false) (readReferences node)
  ∧ (QueryStage.steps node = None → getReads node = Normal []).
Proof.
  split; [apply getReads_readable|]. split; [|split].
  - unfold readable, readSteps, getReads.
    destruct (QueryStage.steps node) as [steps|]; simpl; [|done].
    intros Hall. by rewrite (mapThrowing_readSource_error _ Hall).
  - apply Forall_forall. intros id (step & _ & Hstep)%list_elem_of_omap.
    apply stepReference_no_underscore in Hstep. tauto.
  - apply getReads_ghost.
Qed.

Lemma insert_twice (m : gmap string DisplayValue) key v :
  <[key:=v]> (<[key:=v]> m) = <[key:=v]> m.
Proof. apply insert_insert_eq. Qed.

Lemma setProp_twice key v node :
  QueryStage.setProp key v (QueryStage.setProp key v node) = QueryStage.setProp key v node.
Proof.
  apply stage_eq; [done|]. cbn [QueryStage.setProp QueryStage.props]. apply insert_twice.
Qed.

(** X9: what [formatStageStats] does.  Without a statistics block it throws.
    With one, it returns ['n/a'] and leaves the stage as it is when one of
    the four timestamps is missing or not a number, whether or not
    [startMs] and [endMs] are truthy; otherwise it returns the text of the
    object [stageStats] and sets the key [durationMs  ] of the stage, and
    nothing else. *)
Theorem formatStageStats_outcomes plan node :
  (Job.statistics plan = None → ∃ e, formatStageStats plan node = Throw e)
  ∧ (∀ stats,
       Job.statistics plan = Some stats →
       let startMs := Number (QueryStage.startMs node) in
       let endMs := Number (QueryStage.endMs node) in
       let jobStartMs := Number (Job.startTime stats) in
       let jobEndMs := Number (Job.endTime stats) in
       (existsb isNaN [startMs; endMs; jobStartMs; jobEndMs] = true →
        formatStageStats plan node = Normal (node, "n/a"))
       ∧ (existsb isNaN [startMs; endMs; jobStartMs; jobEndMs] = false →
          ∃ node' fields,
            formatStageStats plan node = Normal (node', JSON_stringify fields)
            ∧ fields
              = stageStats node' startMs endMs
                  (100 * (startMs - jobStartMs) / (jobEndMs - jobStartMs))%float
                  (100 * (endMs - jobStartMs) / (jobEndMs - jobStartMs))%float
            ∧ declaredFields node' = declaredFields node
            ∧ QueryStage.props node' !! "durationMs  "
              = Some (Text (toLocaleString (endMs - startMs)%float))
            ∧ ∀ key, key ≠ "durationMs  " →
                     QueryStage.props node' !! key = QueryStage.props node !! key)).
Proof.
  split.
  { intros Hstats. unfold formatStageStats. rewrite Hstats. eauto. }
  intros stats Hstats. cbv zeta. unfold formatStageStats. rewrite Hstats.
  cbn [existsb]. rewrite orb_false_r.
  rewrite <- !orb_assoc.
  replace (isNaN (Number (QueryStage.startMs node))
           || (isNaN (Number (QueryStage.endMs node))
               || (isNaN (Number (Job.startTime stats))
                   || isNaN (Number (Job.endTime stats)))))
    with (isNaN (Number (QueryStage.endMs node))
          || (isNaN (Number (QueryStage.startMs node))
              || (isNaN (Number (Job.startTime stats))
                  || isNaN (Number (Job.endTime stats)))))
    by (by destruct (isNaN (Number (QueryStage.endMs node))),
                    (isNaN (Number (QueryStage.startMs node)))).
  destruct (isNaN (Number (QueryStage.endMs node))
            || (isNaN (Number (QueryStage.startMs node))
                || (isNaN (Number (Job.startTime stats))
                    || isNaN (Number (Job.endTime stats))))) eqn:Hnan.
  - split; [done|]. intros [=].
  - split; [intros [=]|]. intros _. eexists _, _. split; [reflexivity|].
    split; [reflexivity|]. split; [reflexivity|].
    rewrite lookup_setProp. split; [by rewrite decide_True|].
    intros key Hkey. rewrite lookup_setProp. by rewrite decide_False.
Qed.

(** X10: formatting twice is formatting once: a second call of
    [formatStageStats] returns the same text and leaves the stage as the
    first call left it. *)
Theorem formatStageStats_idempotent plan node node' text :
  formatStageStats plan node = Normal (node', text) →
  formatStageStats plan node' = Normal (node', text).
Proof.
  unfold formatStageStats. destruct (Job.statistics plan) as [stats|]; [|done].
  destruct (isNaN _ || isNaN _ || isNaN _ || isNaN _) eqn:Hnan.
  - intros [= <- <-]. by rewrite Hnan.
  - intros [= <- <-].
    change (QueryStage.endMs (QueryStage.setProp _ _ node)) with (QueryStage.endMs node).
    change (QueryStage.startMs (QueryStage.setProp _ _ node)) with (QueryStage.startMs node).
    rewrite Hnan. by rewrite setProp_twice.
Qed.

Lemma existsb_isNaN_four a b c d :
  existsb isNaN [a; b; c; d] = false →
  isNaN a || isNaN b || isNaN c || isNaN d = false.
Proof.
  cbn [existsb]. destruct (isNaN a), (isNaN b), (isNaN c), (isNaN d); done.
Qed.

Lemma improveNodeInfo_timed plan stats node :
  Job.statistics plan = Some stats →
  truthy (QueryStage.startMs node) = true →
  truthy (QueryStage.endMs node) = true →
  isNaN (Number (QueryStage.startMs node)) || isNaN (Number (QueryStage.endMs node))
  || isNaN (Number (Job.startTime stats)) || isNaN (Number (Job.endTime stats)) = false →
  let startMs := Number (QueryStage.startMs node) in
  let endMs := Number (QueryStage.endMs node) in
  let jobStartMs := Number (Job.startTime stats) in
  let jobEndMs := Number (Job.endTime stats) in
  let avgMax (avg max : option prim) :=
    Text ("avg: " +:+ toLocaleString (Number avg)
          +:+ " max: " +:+ toLocaleString (Number max)) in
  ∃ enriched,
    improveNodeInfo plan node = Normal enriched
    ∧ declaredFields enriched = declaredFields node
    ∧ QueryStage.props enriched
      = <["end %       " :=
            Text (toLocaleString (100 * (endMs - jobStartMs) / (jobEndMs - jobStartMs))%float
                  +:+ "% of job duration")]>
          (<["start %     " :=
               Text (toLocaleString
                       (100 * (startMs - jobStartMs) / (jobEndMs - jobStartMs))%float
                     +:+ "% of job duration")]>
             (<["endTime     " := NewDate endMs]>
                (<["startTime   " := NewDate startMs]>
                   (<["write (ms)  " :=
                        avgMax (QueryStage.writeMsAvg node) (QueryStage.writeMsMax node)]>
                      (<["compute (ms)" :=
                           avgMax (QueryStage.computeMsAvg node) (QueryStage.computeMsMax node)]>
                         (<["read (ms)   " :=
                              avgMax (QueryStage.readMsAvg node) (QueryStage.readMsMax node)]>
                            (<["wait (ms)   " :=
                                 avgMax (QueryStage.waitMsAvg node)
                                   (QueryStage.waitMsMax node)]>
                               (<["durationMs  " :=
                                    Text (toLocaleString (endMs - startMs)%float)]>
                                  (QueryStage.props node))))))))).
Proof.
  intros Hstats Hs He Hnan. cbv zeta.
  unfold improveNodeInfo. rewrite Hstats, Hs, He. cbn [negb orb]. rewrite Hnan.
  eexists. split; [reflexivity|]. split; [by rewrite !setProp_declaredFields|].
  cbn [QueryStage.setProp QueryStage.props]. reflexivity.
Qed.

Lemma formatStageStats_settled plan stats node :
  Job.statistics plan = Some stats →
  isNaN (Number (QueryStage.startMs node)) || isNaN (Number (QueryStage.endMs node))
  || isNaN (Number (Job.startTime stats)) || isNaN (Number (Job.endTime stats)) = false →
  QueryStage.props node !! "durationMs  "
  = Some (Text (toLocaleString
                  (Number (QueryStage.endMs node) - Number (QueryStage.startMs node))%float)) →
  formatStageStats plan node
  = Normal (node,
            JSON_stringify
              (stageStats node (Number (QueryStage.startMs node))
                 (Number (QueryStage.endMs node))
                 (100 * (Number (QueryStage.startMs node) - Number (Job.startTime stats))
                  / (Number (Job.endTime stats) - Number (Job.startTime stats)))%float
                 (100 * (Number (QueryStage.endMs node) - Number (Job.startTime stats))
                  / (Number (Job.endTime stats) - Number (Job.startTime stats)))%float)).
Proof.
  intros Hstats Hnan Hdur. unfold formatStageStats. rewrite Hstats, Hnan.
  assert (QueryStage.setProp "durationMs  "
            (Text (toLocaleString
                     (Number (QueryStage.endMs node) - Number (QueryStage.startMs node))%float))
            node = node) as Hsame.
  { apply stage_eq; [done|]. cbn [QueryStage.setProp QueryStage.props].
    by apply insert_id. }
  by rewrite Hsame.
Qed.

Lemma statEntry_cons key k v fields :
  statEntry key ((k, v) :: fields)
  = if decide (k = key) then Some v else statEntry key fields.
Proof.
  unfold statEntry. cbn [list_find fst]. destruct (decide (k = key)); [done|].
  by destruct (list_find _ fields) as [[??]|].
Qed.

(** X11: the text of [formatStageStats] for a stage that [improveNodeInfo] has
    enriched shows what the enrichment stored on the stage: formatting
    leaves the enriched stage as it is, and each timing entry of the
    formatted object is the value of the display key of the stage with the
    same meaning. *)
Theorem formatted_stats_agree_with_enrichment plan stats node :
  Job.statistics plan = Some stats →
  truthy (QueryStage.startMs node) = true →
  truthy (QueryStage.endMs node) = true →
  existsb isNaN [Number (QueryStage.startMs node); Number (QueryStage.endMs node);
                 Number (Job.startTime stats); Number (Job.endTime stats)] = false →
  ∃ enriched fields,
    improveNodeInfo plan node = Normal enriched
    ∧ formatStageStats plan enriched = Normal (enriched, JSON_stringify fields)
    ∧ Forall (λ keys, statEntry keys.1 fields
                      = statOfDisplay <$> QueryStage.props enriched !! keys.2)
        sharedKeys
    ∧ statEntry "id             " fields = Some (SString (QueryStage.id node))
    ∧ statEntry "name           " fields = Some (SString (QueryStage.name node)).
Proof.
  intros Hstats Hs He Hnan%existsb_isNaN_four.
  destruct (improveNodeInfo_timed plan stats node Hstats Hs He Hnan)
    as (enriched & Himp & Hf & Hprops).
  injection Hf as Hid Hname Hsteps Hinputs Hstart Hend Hwa Hwm Hra Hrm Hca Hcm Hwra Hwrm Hext.
  exists enriched. eexists. split; [done|]. split.
  { apply (formatStageStats_settled plan stats); [done|by rewrite Hstart, Hend|].
    rewrite Hprops, Hstart, Hend. by rewrite !lookup_insert_ne, lookup_insert_eq by done. }
  unfold stageStats.
  rewrite Hid, Hname, Hstart, Hend, Hwa, Hwm, Hra, Hrm, Hca, Hcm, Hwra, Hwrm.
  split.
  - unfold sharedKeys.
    repeat (apply Forall_cons; split;
            [cbn [fst snd]; rewrite Hprops;
             repeat (rewrite statEntry_cons;
                     first [rewrite decide_True by done|rewrite decide_False by done]);
             repeat (rewrite lookup_insert_ne by done); rewrite lookup_insert_eq;
             reflexivity|]).
    apply Forall_nil_2.
  - split.
    + rewrite statEntry_cons. by rewrite decide_True.
    + rewrite !statEntry_cons. rewrite decide_False by done. by rewrite decide_True.
Qed.

(** X12: a ghost node of a constructed plan is inert in every view: it has no
    steps to show and reads nothing, its statistics are ['n/a'], its
    colour is the default, it has no row in the chart, and the enrichment
    left it as the constructor made it. *)
Theorem ghost_nodes_in_the_views plan stages ghost :
  validKind plan = true →
  queryPlanOf plan = Some stages →
  Forall (λ node, readable node = true) stages →
  ghost ∈ drop (length stages) (nodes (this (constructor plan))) →
  ghost = ghostNode (QueryStage.id ghost)
  ∧ getStepDetails ghost = []
  ∧ getReads ghost = Normal []
  ∧ getStageStats plan ghost = Normal (ghost, "n/a")
  ∧ colorForMaxTime ghost = Some "#2290FF"
  ∧ isInternal ghost = false.
Proof.
  intros Hkind Hplan Hall.
  rewrite (constructor_wellFormed plan stages Hkind Hplan Hall). cbn [this nodes].
  rewrite drop_app_length' by (by rewrite length_fmap).
  intros (r & -> & _)%list_elem_of_fmap.
  split; [done|]. split; [done|]. split; [done|]. split; [|done].
  unfold getStageStats, formatStageStats, queryPlanOf in *.
  destruct (Job.statistics plan); done.
Qed.

End WithRuntime.

(** ** Closed examples *)

(** The sample plan is well formed: its two stages read one table that is
    no stage, and the constructor adds one ghost node. *)
Lemma ghost_nodes_added_witness :
  validKind samplePlan = true
  ∧ queryPlanOf samplePlan = Some sampleStages
  ∧ Forall (λ node, readable node = true) sampleStages
  ∧ ∃ ghosts,
      nodes (this (constructor (runtime := sampleRuntime) samplePlan))
      = (improved (runtime := sampleRuntime) samplePlan <$> sampleStages) ++ ghosts
      ∧ length ghosts = 1.
Proof.
  assert (validKind samplePlan = true) as Hkind by reflexivity.
  assert (queryPlanOf samplePlan = Some sampleStages) as Hplan by reflexivity.
  assert (Forall (λ node, readable node = true) sampleStages) as Hall
    by (repeat constructor).
  split; [exact Hkind|]. split; [exact Hplan|]. split; [exact Hall|].
  destruct (ghost_nodes_added (runtime := sampleRuntime) samplePlan sampleStages
              Hkind Hplan Hall) as (ghosts & _ & _ & Hnodes & Hlen & _).
  exists ghosts. split; [exact Hnodes|]. rewrite Hlen. vm_compute. reflexivity.
Defined.

(** The sample plan has three references, and three edges. *)
Lemma edges_counted_and_anchored_witness :
  validKind samplePlan = true
  ∧ queryPlanOf samplePlan = Some sampleStages
  ∧ Forall (λ node, readable node = true) sampleStages
  ∧ length (edges (this (constructor (runtime := sampleRuntime) samplePlan))) = 3.
Proof.
  assert (validKind samplePlan = true) as Hkind by reflexivity.
  assert (queryPlanOf samplePlan = Some sampleStages) as Hplan by reflexivity.
  assert (Forall (λ node, readable node = true) sampleStages) as Hall
    by (repeat constructor).
  split; [exact Hkind|]. split; [exact Hplan|]. split; [exact Hall|].
  destruct (edges_counted_and_anchored (runtime := sampleRuntime) samplePlan sampleStages
              Hkind Hplan Hall) as (_ & _ & Hlen & _).
  rewrite Hlen. vm_compute. reflexivity.
Defined.

(** The claim C3 says that no ghost node and no edge comes from an
    identifier with two leading underscores, also when it stands in
    [inputStages]: here the only reference of the only stage is the
    input-stage entry ["__tmp"], and the constructor makes a ghost node
    for it and an edge from that node. *)
Lemma underscore_inputStage_counterexample :
  let r := constructor (runtime := sampleRuntime) underscorePlan in
  QueryStage.inputStages underscoreStage = Some ["__tmp"]
  ∧ getReads underscoreStage = Normal ["__tmp"]
  ∧ result r = Completed
  ∧ ids (nodes (this r)) = ["1"; "__tmp"]
  ∧ nodes (this r) !! 1 = Some (ghostNode "__tmp")
  ∧ edges (this r)
    = [{| Edge.from := Some 1; Edge.to := 0; Edge.outputName := "S01: Output" |}].
Proof. vm_compute. repeat split. Qed.

(** The ghost node ["__tmp"] of that plan stands for an input-stage entry. *)
Lemma underscore_source_witness :
  result (constructor (runtime := sampleRuntime) underscorePlan) = Completed
  ∧ ∃ stage, stage ∈ [underscoreStage]
             ∧ "__tmp" ∈ default [] (QueryStage.inputStages stage).
Proof.
  assert (result (constructor (runtime := sampleRuntime) underscorePlan) = Completed)
    as Hdone by (vm_compute; reflexivity).
  split; [exact Hdone|].
  destruct (underscore_source_only_from_inputStages (runtime := sampleRuntime)
              underscorePlan) as [_ Hplan].
  destruct (Hplan Hdone) as [Hghost _].
  apply (Hghost (ghostNode "__tmp")); [|reflexivity].
  vm_compute. apply list_elem_of_here.
Defined.

(** The claim C4 says that the constructor throws on no document: it
    throws on a document with a valid kind and no statistics block, and on
    a document with a READ step that has no substep starting with
    ["FROM "]. *)
Lemma constructor_throws_counterexample :
  result (constructor (runtime := sampleRuntime) noStatisticsPlan)
  = Threw (TypeError "Cannot read property 'query' of undefined")
  ∧ result (constructor (runtime := sampleRuntime) fromlessPlan)
    = Threw (TypeError "Cannot read property 'split' of undefined").
Proof. split; vm_compute; reflexivity. Qed.

(** The sample plan is constructible, and its construction completes. *)
Lemma completes_iff_constructible_witness :
  constructible samplePlan = true
  ∧ result (constructor (runtime := sampleRuntime) samplePlan) = Completed.
Proof.
  assert (constructible samplePlan = true) as Hc by reflexivity.
  split; [exact Hc|].
  exact (proj1 (completes_iff_constructible (runtime := sampleRuntime) samplePlan) Hc).
Defined.

(** A document of another kind: the plan is invalid and empty, and the
    warning names the kind. *)
Lemma validation_outcomes_witness :
  let plan := sampleJob (Some "compute#instance") (Some sampleStages) in
  let r := constructor (runtime := sampleRuntime) plan in
  isValid (this r) = false ∧ nodes (this r) = [] ∧ edges (this r) = []
  ∧ log r = [(Warn, "Retrieved document is not of kind bigquery but of kind compute#instance.")]
  ∧ result r = Completed.
Proof.
  exact (proj1 (proj2 (validation_outcomes (runtime := sampleRuntime)
                         (sampleJob (Some "compute#instance") (Some sampleStages))))
           "compute#instance" eq_refl eq_refl).
Defined.

(** The timing example: start 1000, end 3000, job from 0 to 10000. *)
Lemma timing_fields_derived_witness :
  ∃ node',
    improveNodeInfo (runtime := sampleRuntime) timedPlan timedStage = Normal node'
    ∧ QueryStage.props node' !! "durationMs  " = Some (Text "2,000")
    ∧ QueryStage.props node' !! "start %     " = Some (Text "10% of job duration")
    ∧ QueryStage.props node' !! "end %       " = Some (Text "30% of job duration").
Proof.
  destruct (timing_fields_derived (runtime := sampleRuntime) timedPlan timedStatistics
              timedStage eq_refl eq_refl eq_refl eq_refl eq_refl eq_refl eq_refl)
    as (node' & Hnode & _ & _ & _ & Hexample).
  destruct (Hexample eq_refl eq_refl eq_refl eq_refl) as (Hd & Hs & He).
  exists node'. split; [exact Hnode|]. split; [exact Hd|]. split; [exact Hs|exact He].
Defined.

(** C6 as stated fails: the four timestamps of this stage are numbers
    (start 0, end 3000, job from 0 to 10000), and the enrichment derives
    nothing, since [!node.startMs] holds for the number 0: the stage is
    returned as it is, with no display key, also by the constructor. *)
Lemma timing_zero_start_counterexample :
  Job.statistics zeroStartPlan = Some zeroStartStatistics
  ∧ existsb isNaN
      [@Number sampleRuntime (QueryStage.startMs zeroStartStage);
       @Number sampleRuntime (QueryStage.endMs zeroStartStage);
       @Number sampleRuntime (Job.startTime zeroStartStatistics);
       @Number sampleRuntime (Job.endTime zeroStartStatistics)] = false
  ∧ improveNodeInfo (runtime := sampleRuntime) zeroStartPlan zeroStartStage
    = Normal zeroStartStage
  ∧ QueryStage.props zeroStartStage !! "durationMs  " = None
  ∧ QueryStage.props zeroStartStage !! "start %     " = None
  ∧ QueryStage.props zeroStartStage !! "end %       " = None
  ∧ nodes (this (constructor (runtime := sampleRuntime) zeroStartPlan)) = [zeroStartStage]
  ∧ result (constructor (runtime := sampleRuntime) zeroStartPlan) = Completed.
Proof. vm_compute. by repeat split. Qed.

(** A stage whose [startMs] is not a number is left as it is. *)
Lemma enrichment_skipped_witness :
  let node := sampleStage "0" "S00: Input" [] None "n/a" "3000" in
  improveNodeInfo (runtime := sampleRuntime) samplePlan node = Normal node.
Proof.
  refine (proj1 (enrichment_skipped (runtime := sampleRuntime) samplePlan _ _ eq_refl _)).
  left. right. reflexivity.
Defined.

(** A stage with wait, read and compute averages gets a colour of the
    palette. *)
Lemma color_for_max_time_witness :
  ∃ i color,
    colorForMaxTime (runtime := sampleRuntime) inputStage = Some color
    ∧ palette !! i = Some color.
Proof.
  destruct (color_for_max_time (runtime := sampleRuntime) inputStage) as (_ & Hmax & _).
  destruct (Hmax eq_refl) as (_ & Hnumbers & _).
  destruct (Hnumbers eq_refl) as (i & color & y & Hcolor & Hpalette & _).
  exists i, color. split; [exact Hcolor|exact Hpalette].
Defined.

(** C9 as stated fails: this stage has a wait average of 5, which is not
    zero, and no read average; the maximum of the list is NaN, which is at
    no position of the list, and the function returns [undefined], no
    entry of the palette. *)
Lemma color_undefined_counterexample :
  truthy (QueryStage.waitMsAvg readlessStage) = true
  ∧ @Number sampleRuntime (QueryStage.waitMsAvg readlessStage) = 5%float
  ∧ QueryStage.readMsAvg readlessStage = None
  ∧ colorForMaxTime (runtime := sampleRuntime) readlessStage = None
  ∧ Forall (λ color, colorForMaxTime (runtime := sampleRuntime) readlessStage ≠ Some color)
      palette.
Proof. vm_compute. repeat split; try done. by repeat constructor. Qed.

(** The enrichment of the timed stage keeps its declared fields. *)
Lemma enrichment_frame_witness :
  ∃ node',
    improveNodeInfo (runtime := sampleRuntime) timedPlan timedStage = Normal node'
    ∧ declaredFields node' = declaredFields timedStage.
Proof.
  destruct (improveNodeInfo (runtime := sampleRuntime) timedPlan timedStage)
    as [node'|e] eqn:Hnode; [|discriminate Hnode].
  exists node'. split; [reflexivity|].
  exact (proj1 (proj1 (enrichment_frame (runtime := sampleRuntime) timedPlan)
                  timedStage node' Hnode)).
Defined.

(** The ids of the sample plan are distinct, and stay so with its ghost node. *)
Lemma node_ids_stay_distinct_witness :
  NoDup (ids sampleStages)
  ∧ NoDup (ids (nodes (this (constructor (runtime := sampleRuntime) samplePlan)))).
Proof.
  assert (validKind samplePlan = true) as Hkind by reflexivity.
  assert (queryPlanOf samplePlan = Some sampleStages) as Hplan by reflexivity.
  assert (Forall (λ node, readable node = true) sampleStages) as Hall
    by (repeat constructor).
  assert (NoDup (ids sampleStages)) as Hids
    by (apply (bool_decide_unpack _); vm_compute; exact I).
  split; [exact Hids|].
  exact (node_ids_stay_distinct (runtime := sampleRuntime) samplePlan sampleStages
           Hkind Hplan Hall Hids).
Defined.

(** Lookup in the sample plan finds the ids of its stages and of what they
    read, and nothing else. *)
Lemma getNode_of_constructed_witness :
  validKind samplePlan = true
  ∧ queryPlanOf samplePlan = Some sampleStages
  ∧ Forall (λ node, readable node = true) sampleStages
  ∧ ∀ id,
      is_Some (getNode (nodes (this (constructor (runtime := sampleRuntime) samplePlan))) id)
      ↔ id ∈ ids sampleStages ∨ id ∈ allReads sampleStages.
Proof.
  assert (validKind samplePlan = true) as Hkind by reflexivity.
  assert (queryPlanOf samplePlan = Some sampleStages) as Hplan by reflexivity.
  assert (Forall (λ node, readable node = true) sampleStages) as Hall
    by (repeat constructor).
  split; [exact Hkind|]. split; [exact Hplan|]. split; [exact Hall|].
  exact (proj1 (getNode_of_constructed (runtime := sampleRuntime) samplePlan sampleStages
                  Hkind Hplan Hall)).
Defined.

(** The edges of the sample plan come in the order of the reading stages. *)
Lemma edges_in_traversal_order_witness :
  validKind samplePlan = true
  ∧ queryPlanOf samplePlan = Some sampleStages
  ∧ Forall (λ node, readable node = true) sampleStages
  ∧ StronglySorted le
      (Edge.to <$> edges (this (constructor (runtime := sampleRuntime) samplePlan))).
Proof.
  assert (validKind samplePlan = true) as Hkind by reflexivity.
  assert (queryPlanOf samplePlan = Some sampleStages) as Hplan by reflexivity.
  assert (Forall (λ node, readable node = true) sampleStages) as Hall
    by (repeat constructor).
  split; [exact Hkind|]. split; [exact Hplan|]. split; [exact Hall|].
  exact (proj2 (edges_in_traversal_order (runtime := sampleRuntime) samplePlan sampleStages
                  Hkind Hplan Hall)).
Defined.

(** The ghost node of the sample plan, at position 2, has an edge from it
    and none to it. *)
Lemma ghost_nodes_are_pure_sources_witness :
  nodes (this (constructor (runtime := sampleRuntime) samplePlan)) !! 2
  = Some (ghostNode "publicdata.samples.shakespeare")
  ∧ (∀ e, e ∈ edges (this (constructor (runtime := sampleRuntime) samplePlan)) →
          Edge.to e ≠ 2)
  ∧ ∃ e, e ∈ edges (this (constructor (runtime := sampleRuntime) samplePlan))
         ∧ Edge.from e = Some 2.
Proof.
  assert (validKind samplePlan = true) as Hkind by reflexivity.
  assert (queryPlanOf samplePlan = Some sampleStages) as Hplan by reflexivity.
  assert (Forall (λ node, readable node = true) sampleStages) as Hall
    by (repeat constructor).
  assert (length sampleStages ≤ 2) as Hlen by (vm_compute; lia).
  assert (nodes (this (constructor (runtime := sampleRuntime) samplePlan)) !! 2
          = Some (ghostNode "publicdata.samples.shakespeare")) as Hghost
    by (vm_compute; reflexivity).
  split; [exact Hghost|].
  exact (ghost_nodes_are_pure_sources (runtime := sampleRuntime) samplePlan sampleStages
           2 (ghostNode "publicdata.samples.shakespeare") Hkind Hplan Hall Hlen Hghost).
Defined.

(** Enriching the timed stage a second time changes nothing. *)
Lemma improveNodeInfo_idempotent_witness :
  ∃ node',
    improveNodeInfo (runtime := sampleRuntime) timedPlan timedStage = Normal node'
    ∧ improveNodeInfo (runtime := sampleRuntime) timedPlan node' = Normal node'.
Proof.
  destruct (improveNodeInfo (runtime := sampleRuntime) timedPlan timedStage)
    as [node'|e] eqn:Hnode; [|discriminate Hnode].
  exists node'. split; [reflexivity|].
  exact (improveNodeInfo_idempotent (runtime := sampleRuntime) timedPlan timedStage node'
           Hnode).
Defined.

(** The chart of the sample plan, with two rows, is 40 high. *)
Lemma chart_of_constructed_witness :
  validKind samplePlan = true
  ∧ queryPlanOf samplePlan = Some sampleStages
  ∧ Forall (λ node, readable node = true) sampleStages
  ∧ ganttHeight (this (constructor (runtime := sampleRuntime) samplePlan)) = 40.
Proof.
  assert (validKind samplePlan = true) as Hkind by reflexivity.
  assert (queryPlanOf samplePlan = Some sampleStages) as Hplan by reflexivity.
  assert (Forall (λ node, readable node = true) sampleStages) as Hall
    by (repeat constructor).
  split; [exact Hkind|]. split; [exact Hplan|]. split; [exact Hall|].
  destruct (chart_of_constructed (runtime := sampleRuntime) samplePlan sampleStages
              Hkind Hplan Hall) as (_ & Hheight & _).
  rewrite Hheight. vm_compute. reflexivity.
Defined.

(** Formatting the timed stage a second time gives the same text. *)
Lemma formatStageStats_idempotent_witness :
  ∃ node' text,
    formatStageStats (runtime := sampleRuntime) (builtins := sampleBuiltins)
      timedPlan timedStage = Normal (node', text)
    ∧ formatStageStats (runtime := sampleRuntime) (builtins := sampleBuiltins)
        timedPlan node' = Normal (node', text).
Proof.
  destruct (formatStageStats (runtime := sampleRuntime) (builtins := sampleBuiltins)
              timedPlan timedStage) as [[node' text]|e] eqn:Hnode; [|discriminate Hnode].
  exists node', text. split; [reflexivity|].
  exact (formatStageStats_idempotent (runtime := sampleRuntime) (builtins := sampleBuiltins)
           timedPlan timedStage node' text Hnode).
Defined.

(** The formatted object of the enriched timed stage. *)
Lemma formatted_stats_agree_with_enrichment_witness :
  ∃ enriched fields,
    improveNodeInfo (runtime := sampleRuntime) timedPlan timedStage = Normal enriched
    ∧ formatStageStats (runtime := sampleRuntime) (builtins := sampleBuiltins)
        timedPlan enriched
      = Normal (enriched, JSON_stringify (Builtins := sampleBuiltins) fields)
    ∧ statEntry "id             " fields = Some (SString "0").
Proof.
  destruct (formatted_stats_agree_with_enrichment (runtime := sampleRuntime)
              (builtins := sampleBuiltins) timedPlan timedStatistics timedStage
              eq_refl eq_refl eq_refl eq_refl)
    as (enriched & fields & Himproved & Hformat & _ & Hid & _).
  exists enriched, fields. split; [exact Himproved|]. split; [exact Hformat|exact Hid].
Defined.

(** The statistics of the ghost node of the sample plan are ['n/a']. *)
Lemma ghost_nodes_in_the_views_witness :
  ghostNode "publicdata.samples.shakespeare"
  ∈ drop (length sampleStages)
      (nodes (this (constructor (runtime := sampleRuntime) samplePlan)))
  ∧ getStageStats (runtime := sampleRuntime) (builtins := sampleBuiltins) samplePlan
      (ghostNode "publicdata.samples.shakespeare")
    = Normal (ghostNode "publicdata.samples.shakespeare", "n/a").
Proof.
  assert (validKind samplePlan = true) as Hkind by reflexivity.
  assert (queryPlanOf samplePlan = Some sampleStages) as Hplan by reflexivity.
  assert (Forall (λ node, readable node = true) sampleStages) as Hall
    by (repeat constructor).
  assert (ghostNode "publicdata.samples.shakespeare"
          ∈ drop (length sampleStages)
              (nodes (this (constructor (runtime := sampleRuntime) samplePlan)))) as Hin
    by (vm_compute; apply list_elem_of_here).
  split; [exact Hin|].
  exact (proj1 (proj2 (proj2 (proj2
           (ghost_nodes_in_the_views (runtime := sampleRuntime) (builtins := sampleBuiltins)
              samplePlan sampleStages (ghostNode "publicdata.samples.shakespeare")
              Hkind Hplan Hall Hin))))).
Defined.

(** What the model computes on the sample documents. *)
Example split_FROM_example :
  split " "%char "FROM publicdata.samples.shakespeare"
  = ["FROM"; "publicdata.samples.shakespeare"].
Proof. reflexivity. Qed.

Example getReads_example :
  getReads outputStage = Normal ["publicdata.samples.shakespeare"; "0"].
Proof. reflexivity. Qed.

Example constructor_example :
  let r := constructor (runtime := sampleRuntime) samplePlan in
  result r = Completed
  ∧ isValid (this r) = true
  ∧ ids (nodes (this r)) = ["0"; "1"; "publicdata.samples.shakespeare"]
  ∧ edges (this r)
    = [{| Edge.from := Some 2; Edge.to := 0; Edge.outputName := "S00: Input" |};
       {| Edge.from := Some 2; Edge.to := 1; Edge.outputName := "S01: Output" |};
       {| Edge.from := Some 0; Edge.to := 1; Edge.outputName := "S01: Output" |}]
  ∧ (QueryStage.props <$> nodes (this r) !! 0)
    = Some (list_to_map
              [("durationMs  ", Text "2,000");
               ("wait (ms)   ", Text "avg: 5 max: 9");
               ("read (ms)   ", Text "avg: 120 max: 200");
               ("compute (ms)", Text "avg: 40 max: 70");
               ("write (ms)  ", Text "avg: 300 max: 400");
               ("startTime   ", NewDate 1000);
               ("endTime     ", NewDate 3000);
               ("start %     ", Text "10% of job duration");
               ("end %       ", Text "30% of job duration")]).
Proof. vm_compute. repeat split. Qed.

Example ganttRows_example :
  taskId <$> ganttRows (runtime := sampleRuntime)
               (this (constructor (runtime := sampleRuntime) samplePlan))
  = ["0"; "1"].
Proof. vm_compute. reflexivity. Qed.

Example colorForMaxTime_example :
  colorForMaxTime (runtime := sampleRuntime) inputStage = Some "#7b1fa2"
  ∧ colorForMaxTime (runtime := sampleRuntime) (ghostNode "publicdata.samples.shakespeare")
    = Some "#2290FF".
Proof. vm_compute. split; reflexivity. Qed.

End BqQueryPlan.

(** ** The filter of the projects *)

Module ProjectsComponentProperties.

Import ProjectsComponent.

Lemma startsWith_app s p : startsWith s p = true ↔ ∃ post, s = p +:+ post.
Proof.
  unfold startsWith. revert s. induction p as [|a p IH]; intros s.
  - split; [intros _; by exists s|]. by destruct s.
  - destruct s as [|b s]; [split; [done|by intros [? ?]]|].
    cbn [String.prefix]. destruct (ascii_dec a b) as [->|Hab].
    + rewrite IH. split; intros [post Hpost]; exists post.
      * cbn. by rewrite Hpost.
      * cbn in Hpost. by injection Hpost.
    + split; [done|]. intros [post Hpost]. injection Hpost as Hb _. congruence.
Qed.

Lemma lastIndexOfFrom_occursIn i s part :
  (0 ≤ i)%Z → (0 ≤ lastIndexOfFrom i s part)%Z ↔ occursIn part s.
Proof.
  revert i. induction s as [|c s IH]; intros i Hi; cbn [lastIndexOfFrom].
  - destruct (startsWith "" part) eqn:Hstart.
    + split; [intros _|lia]. destruct (proj1 (startsWith_app _ _) Hstart) as [post Hpost].
      by exists "", post.
    + split; [lia|]. intros (pre & post & Heq). exfalso.
      destruct pre; [|done]. cbn in Heq.
      assert (startsWith "" part = true) as Hyes by (apply startsWith_app; eauto).
      congruence.
  - destruct (Z.leb_spec 0 (lastIndexOfFrom (i + 1) s part)) as [Hlater|Hlater].
    + split; [intros _|done].
      destruct (proj1 (IH (i + 1)%Z ltac:(lia)) Hlater) as (pre & post & ->).
      by exists (String c pre), post.
    + destruct (startsWith (String c s) part) eqn:Hstart.
      * split; [intros _|lia].
        destruct (proj1 (startsWith_app _ _) Hstart) as [post Hpost].
        by exists "", post.
      * split; [lia|]. intros (pre & post & Heq). exfalso.
        destruct pre as [|c' pre].
        -- cbn in Heq.
           assert (startsWith (String c s) part = true) as Hyes
             by (apply startsWith_app; eauto).
           congruence.
        -- cbn in Heq. injection Heq as _ Heq.
           assert (0 ≤ lastIndexOfFrom (i + 1) s part)%Z; [|lia].
           apply IH; [lia|]. by exists pre, post.
Qed.

Lemma lastIndexOf_occursIn s part : (0 ≤ lastIndexOf s part)%Z ↔ occursIn part s.
Proof. by apply lastIndexOfFrom_occursIn. Qed.

#[export] Instance occursIn_dec part s : Decision (occursIn part s) :=
  match decide (0 ≤ lastIndexOf s part)%Z with
  | left Hfound => left (proj1 (lastIndexOf_occursIn s part) Hfound)
  | right Habsent => right (λ Hin, Habsent (proj2 (lastIndexOf_occursIn s part) Hin))
  end.

Section WithProject.

Context {BqProject : Type} (id : BqProject → string).

(** X13: [updateFilter] shows the projects whose id contains the filter, in
    the order of [allProjects] and as often as they are listed there; the
    empty filter, which the code treats apart, is no exception, since
    every id contains the empty string.  It changes no other field, and
    running it again changes nothing. *)
Theorem updateFilter_shows_matching (this : t (BqProject := BqProject)) :
  projects (updateFilter id this)
  = filter (λ p, occursIn (projectFilter this) (id p)) (allProjects this)
  ∧ allProjects (updateFilter id this) = allProjects this
  ∧ projectFilter (updateFilter id this) = projectFilter this
  ∧ selectedProject (updateFilter id this) = selectedProject this
  ∧ isLoading (updateFilter id this) = isLoading this
  ∧ updateFilter id (updateFilter id this) = updateFilter id this.
Proof.
  split.
  { unfold updateFilter. destruct (projectFilter this) as [|c part];
      cbn [projects]; induction (allProjects this) as [|p l IH]; try done.
    - rewrite filter_cons_True by (by exists "", (id p)). by f_equal.
    - cbn [List.filter]. rewrite filter_cons, <- IH.
      destruct (Z.leb_spec 0 (lastIndexOf (id p) (String c part))) as [Hfound|Habsent].
      + by rewrite decide_True by (by apply lastIndexOf_occursIn).
      + rewrite decide_False; [done|]. rewrite <- lastIndexOf_occursIn. lia. }
  destruct this as [all shown [|c part] selected loading]; done.
Qed.

End WithProject.

(** What the model computes for three projects and the filter ['prod']. *)
Example updateFilter_example :
  projects
    (updateFilter (λ p : string, p)
       {| allProjects := ["analytics-prod"; "analytics-test"; "prod-billing"];
          projects := []; projectFilter := "prod";
          selectedProject := None; isLoading := None |})
  = ["analytics-prod"; "prod-billing"]
  ∧ lastIndexOf "prod-reprod" "prod" = 7%Z
  ∧ lastIndexOf "analytics-test" "prod" = (-1)%Z.
Proof. vm_compute. by repeat split. Qed.

End ProjectsComponentProperties.
